(** * SURFACEDETECTOR: the device registry of [server/server.js]

    A shallow embedding of the Socket.IO handlers of [server/server.js]
    (connection, [register], [sensor-data], [disconnect]) together with the
    in-memory registry [devices] they share, and the properties of the
    registry and of the fan-out that the specification states.

    Conventions of the model:
    - a JavaScript number is a binary64 float ([PrimFloat.float]);
    - the registry is a JavaScript [Map] from a deviceId to an object
      reference: an insertion-ordered association list of addresses into a
      store of objects, so that in-place updates ([dev.lat = lat]) and
      replaced objects ([devices.set(deviceId, entry)]) stay distinct;
    - [socket.emit], [io.emit] and [appendCsv] are recorded as effects, in
      the order in which the handler performs them; a [devices] message
      carries the objects as they are when it is emitted; [console.log] is
      not recorded;
    - a handler runs to completion before the next event is handled;
    - what a handler reads from the runtime ([uuidv4()], [new Date()]) is
      an input of the handler. *)

From Stdlib Require Import Floats.PrimFloat Ascii.
From stdpp Require Import base option list strings gmap.

Local Open Scope string_scope.
Local Open Scope list_scope.

(** ** JavaScript values carried by a payload *)

(** The scalar values a JSON payload field can hold, [undefined] standing
    for a missing key. Nested objects and arrays are not modelled. *)
Inductive value : Type :=
  | VUndefined
  | VNull
  | VBool (b : bool)
  | VNum (f : float)
  | VStr (s : string).

(** [typeof v === 'number'] *)
Definition is_number (v : value) : bool :=
  match v with VNum _ => true | _ => false end.

(** A number is falsy when it is [+0], [-0] or [NaN]. *)
Definition falsy_number (f : float) : bool := (is_nan f || is_zero f)%bool.

(** ToBoolean, the test behind [!v], [a || b] and [a && b]. *)
Definition ToBoolean (v : value) : bool :=
  match v with
  | VUndefined | VNull => false
  | VBool b => b
  | VNum f => negb (falsy_number f)
  | VStr s => negb (bool_decide (s = ""))
  end.

(** [a || b] on values. *)
Definition js_or (a b : value) : value := if ToBoolean a then a else b.

(** [s || d] where [s] is a string-typed field that may be missing. *)
Definition str_or (s : option string) (d : string) : string :=
  match s with
  | Some s => if decide (s = "") then d else s
  | None => d
  end.

(** ** Records of the program *)

(** The payload of a [register] or [sensor-data] message:
    [{ deviceId, time, x, y, z, lat, lon }]. [deviceId] is a string when it is
    present (the wire contract); the other fields hold any scalar. *)
Module Payload.
Record t : Type := mk {
  deviceId : option string;
  time : value;
  x : value;
  y : value;
  z : value;
  lat : value;
  lon : value }.

(** The payload [{}]. *)
Definition empty : t :=
  mk None VUndefined VUndefined VUndefined VUndefined VUndefined VUndefined.

(** The payload [{ ...p, deviceId: d }]. *)
Definition with_deviceId (d : string) (p : t) : t :=
  mk (Some d) (time p) (x p) (y p) (z p) (lat p) (lon p).
End Payload.

(** [const row = { time, x, y, z, lat, lon, ip }] *)
Module Row.
Record t : Type := mk {
  time : value;
  x : float;
  y : float;
  z : float;
  lat : value;
  lon : value;
  ip : string }.
End Row.

(** An object of the registry: [{ deviceId, ip, socketId, lastSeen, lat, lon }].
    [socketId] is a socket id or [null]. *)
Module Device.
Record t : Type := mk {
  deviceId : string;
  ip : string;
  socketId : option string;
  lastSeen : string;
  lat : value;
  lon : value }.
End Device.

(** What the handlers of one connection close over: [socket.id], the result
    of [clientIpFromSocket(socket)] and [socket.handshake.query.role]. *)
Module Socket.
Record t : Type := mk {
  id : string;
  ip : string;
  query_role : option string }.

(** [(socket.handshake.query && socket.handshake.query.role) || 'device'] *)
Definition role (s : t) : string := str_or (query_role s) "device".
End Socket.

(** What one run of a handler reads from the runtime: the string [uuidv4()]
    returns, and the results of its first and second
    [new Date().toISOString()]. *)
Record Runtime : Type := {
  uuidv4 : string;
  date1 : string;
  date2 : string }.

(** [`dev_${uuidv4().slice(0, 8)}`] *)
Definition synth_id (rt : Runtime) : string :=
  String.append "dev_" (String.substring 0 8 (uuidv4 rt)).

(** ** The registry: a [Map] of object references *)

Definition loc : Type := nat.

(** A [Map] keeps its keys in the order of their first insertion. *)
Fixpoint Map_get (k : string) (m : list (string * loc)) : option loc :=
  match m with
  | [] => None
  | (k', a) :: m' => if decide (k = k') then Some a else Map_get k m'
  end.

Fixpoint Map_set (k : string) (a : loc) (m : list (string * loc))
  : list (string * loc) :=
  match m with
  | [] => [(k, a)]
  | (k', a') :: m' =>
      if decide (k = k') then (k', a) :: m' else (k', a') :: Map_set k a m'
  end.

(** [Array.from(m.values())]: a new array of the same object references. *)
Definition Map_values (m : list (string * loc)) : list loc := m.*2.

Record State : Type := {
  devices : list (string * loc);    (* const devices = new Map() *)
  heap : list Device.t;             (* the objects, by address *)
  data : gmap string string }.      (* socket.id to socket.data.deviceId *)

Definition init : State := {| devices := []; heap := []; data := ∅ |}.

(** [devices.get(k)], with the address of the object found. *)
Definition get_device (st : State) (k : string) : option (loc * Device.t) :=
  a ← Map_get k (devices st); dev ← heap st !! a; Some (a, dev).

(** The array [Array.from(devices.values())] that [/devices] and every
    [devices] message are built from. *)
Definition snapshot (st : State) : list loc := Map_values (devices st).

(** The objects an array of references shows when it is read in store [h]. *)
Definition read (h : list Device.t) (arr : list loc) : list Device.t :=
  omap (λ a, h !! a) arr.

(** ** Messages and effects *)

Inductive message : Type :=
  | devices_msg (list : list Device.t)               (* 'devices' *)
  | registered_msg (deviceId : string)               (* 'registered' *)
  | sensor_data_msg (deviceId : string) (row : Row.t). (* 'sensor-data' *)

Inductive effect : Type :=
  | socket_emit (to : string) (m : message)   (* socket.emit, to one socket *)
  | io_emit (m : message)                     (* io.emit, to every socket *)
  | appendCsv (deviceId : string) (row : Row.t).

(** ** The address of a connection *)

(** The characters of a string. The value of an HTTP header reaches the
    program with one character for each of its bytes, so the characters of
    [x-forwarded-for] are bytes. *)
Definition chars (s : string) : list Ascii.ascii :=
  String.list_ascii_of_string s.

(** The characters below 256 that [trim] removes: TAB, LF, VT, FF, CR, SP and
    NBSP. *)
Definition is_space (c : Ascii.ascii) : bool :=
  bool_decide (Ascii.nat_of_ascii c ∈ [9; 10; 11; 12; 13; 32; 160]).

(** [s.trimStart()], [s.trimEnd()] and [s.trim()] *)
Fixpoint trimStart (s : string) : string :=
  match s with
  | EmptyString => EmptyString
  | String c s' => if is_space c then trimStart s' else s
  end.

Fixpoint trimEnd (s : string) : string :=
  match s with
  | EmptyString => EmptyString
  | String c s' =>
      match trimEnd s' with
      | EmptyString => if is_space c then EmptyString else String c EmptyString
      | t => String c t
      end
  end.

Definition trim (s : string) : string := trimEnd (trimStart s).

(** [s.split(',')[0]]: what stands before the first comma. *)
Fixpoint before_comma (s : string) : string :=
  match s with
  | EmptyString => EmptyString
  | String c s' =>
      if Ascii.eqb c ","%char then EmptyString else String c (before_comma s')
  end.

(** What follows [pat] in [s] when [s] starts with [pat]. *)
Fixpoint strip_prefix (pat s : string) : option string :=
  match pat, s with
  | EmptyString, _ => Some s
  | String a pat', String b s' =>
      if Ascii.eqb a b then strip_prefix pat' s' else None
  | String _ _, EmptyString => None
  end.

(** [s.replace(pat, '')] for a string [pat]: the first occurrence of [pat]
    is removed. *)
Fixpoint remove_first (pat s : string) : string :=
  match strip_prefix pat s with
  | Some rest => rest
  | None =>
      match s with
      | EmptyString => EmptyString
      | String c s' => String c (remove_first pat s')
      end
  end.


(** What [clientIpFromSocket] reads of a socket:
    [socket.handshake.headers['x-forwarded-for']], [socket.handshake.address]
    and [socket.conn && socket.conn.remoteAddress]. *)
Module Handshake.
Record t : Type := mk {
  x_forwarded_for : option string;
  address : option string;
  remoteAddress : option string }.

(** [socket.handshake.address || (socket.conn && socket.conn.remoteAddress) || ''] *)
Definition addr (h : t) : string :=
  str_or (address h) (str_or (remoteAddress h) "").
End Handshake.

Definition clientIpFromSocket (h : Handshake.t) : string :=
  if decide (str_or (Handshake.x_forwarded_for h) "" = "") then
    remove_first "::ffff:" (Handshake.addr h)
  else
    trim (before_comma (str_or (Handshake.x_forwarded_for h) "")).

(** ** Data of the examples *)

(** Two device connections, a dashboard that connects as [admin], and a
    connection that names its role [observer]. *)
Definition conn1 : Socket.t := Socket.mk "s1" "10.0.0.1" None.
Definition conn2 : Socket.t := Socket.mk "s2" "10.0.0.2" None.
Definition admin_conn : Socket.t := Socket.mk "a1" "10.0.0.9" (Some "admin").
Definition observer_conn : Socket.t :=
  Socket.mk "o1" "10.0.0.8" (Some "observer").

Definition rt1 : Runtime :=
  {| uuidv4 := "01234567-89ab-4cde-8f01-23456789abcd"; date1 := "T1"; date2 := "T1'" |}.
Definition rt2 : Runtime :=
  {| uuidv4 := "fedcba98-7654-4321-8fed-cba987654321"; date1 := "T2"; date2 := "T2'" |}.
Definition rt3 : Runtime :=
  {| uuidv4 := "0f1e2d3c-4b5a-4697-8877-665544332211"; date1 := "T3"; date2 := "T3'" |}.

(** [{ deviceId: 'A' }] and [{ deviceId: 'B' }] *)
Definition payload_A : Payload.t := Payload.with_deviceId "A" Payload.empty.
Definition payload_B : Payload.t := Payload.with_deviceId "B" Payload.empty.

(** [{ x: 1, y: 2, z: 3, lat: 10.5, lon: 20.5 }] *)
Definition payload_position : Payload.t :=
  Payload.mk None VUndefined (VNum 1) (VNum 2) (VNum 3) (VNum 10.5) (VNum 20.5).

(** [{ x: 1, y: 2, z: 3 }] *)
Definition payload_no_position : Payload.t :=
  Payload.mk None VUndefined (VNum 1) (VNum 2) (VNum 3) VUndefined VUndefined.

(** [{ x: true, y: null, z: undefined }] *)
Definition payload_true : Payload.t :=
  Payload.mk None VUndefined (VBool true) VNull VUndefined VUndefined VUndefined.

(** [{ x: 'abc', y: null, z: undefined }] *)
Definition payload_malformed : Payload.t :=
  Payload.mk None VUndefined (VStr "abc") VNull VUndefined VUndefined VUndefined.

(** A registry whose record of [A] has the latitude [0]. No run of the
    handlers stores the number [0] (a sample stores [payload.lat || '']): the
    registry is given as it stands. *)
Definition registry_lat_zero : State :=
  {| devices := [("A", 0)];
     heap := [Device.mk "A" "10.0.0.1" (Some "s1") "T1" (VNum 0) (VNum 20.5)];
     data := ∅ |}.

(** StringToNumber on the strings of the examples: [''] reads as [0], ['1.5']
    as [1.5], and ['abc'] is no numeric literal. Its answer [NaN] on every
    other string is not meant to follow the runtime. *)
Definition StringToNumber_examples (str : string) : float :=
  if decide (str = "") then 0%float
  else if decide (str = "1.5") then 1.5%float
  else nan.

(** A handshake that came through a proxy, and one that did not. *)
Definition handshake_forwarded : Handshake.t :=
  Handshake.mk (Some " 203.0.113.7 , 10.0.0.1") (Some "::ffff:127.0.0.1") None.

(** Two registrations of distinct ids. *)
Definition two_registrations
    : list (string * (Socket.t * Runtime * Payload.t)) :=
  [("A", (conn1, rt1, Payload.empty)); ("B", (conn2, rt2, payload_position))].

(** ** The handlers *)

Section Server.

(** [Number(s)] on a string is ECMAScript's StringToNumber, a builtin of the
    runtime: the handlers are stated over it. *)
Variable StringToNumber : string → float.

(** [Number(v)] *)
Definition Number (v : value) : float :=
  match v with
  | VUndefined => nan
  | VNull => 0
  | VBool true => 1
  | VBool false => 0
  | VNum f => f
  | VStr s => StringToNumber s
  end.

(** [typeof v === 'number' ? v : Number(v) || 0] *)
Definition axis (v : value) : float :=
  if is_number v then Number v
  else if falsy_number (Number v) then 0%float else Number v.

(** [io.on('connection', (socket) => ...)]: the body before the handlers are
    installed. *)
Definition on_connection (s : Socket.t) (st : State) : State * list effect :=
  (st,
   if decide (Socket.role s = "admin") then
     [socket_emit (Socket.id s) (devices_msg (read (heap st) (snapshot st)))]
   else []).

(** [socket.on('register', (payload) => ...)] *)
Definition on_register (s : Socket.t) (rt : Runtime) (payload : option Payload.t)
    (st : State) : State * list effect :=
  let deviceId := str_or (payload ≫= Payload.deviceId) (synth_id rt) in
  let now := date1 rt in
  (* const existing = devices.get(deviceId) || {} *)
  let existing := snd <$> get_device st deviceId in
  let entry :=
    {| Device.deviceId := deviceId;
       Device.ip := Socket.ip s;
       Device.socketId := Some (Socket.id s);
       Device.lastSeen := now;
       Device.lat := js_or (from_option Device.lat VUndefined existing) VNull;
       Device.lon := js_or (from_option Device.lon VUndefined existing) VNull |} in
  let st' :=
    {| devices := Map_set deviceId (length (heap st)) (devices st);
       heap := heap st ++ [entry];
       data := <[Socket.id s := deviceId]> (data st) |} in
  (st',
   [socket_emit (Socket.id s) (registered_msg deviceId);
    io_emit (devices_msg (read (heap st') (snapshot st')))]).

(** The id a [sensor-data] message is attributed to:
    [socket.data.deviceId || payload.deviceId || `dev_...`]. *)
Definition sample_id (s : Socket.t) (rt : Runtime) (p : Payload.t) (st : State)
    : string :=
  str_or (data st !! Socket.id s) (str_or (Payload.deviceId p) (synth_id rt)).

(** [socket.on('sensor-data', (payload) => ...)]; an absent payload is
    [None]. *)
Definition on_sensor_data (s : Socket.t) (rt : Runtime)
    (payload : option Payload.t) (st : State) : State * list effect :=
  match payload with
  | None => (st, [])                                  (* if (!payload) return *)
  | Some p =>
      let deviceId := sample_id s rt p st in
      let time := js_or (Payload.time p) (VStr (date1 rt)) in
      let lat := js_or (Payload.lat p) (VStr "") in
      let lon := js_or (Payload.lon p) (VStr "") in
      let row :=
        {| Row.time := time;
           Row.x := axis (Payload.x p);
           Row.y := axis (Payload.y p);
           Row.z := axis (Payload.z p);
           Row.lat := lat;
           Row.lon := lon;
           Row.ip := Socket.ip s |} in
      (* the clock is read a second time only when payload.time was falsy *)
      let seen := if ToBoolean (Payload.time p) then date1 rt else date2 rt in
      let st' :=
        match get_device st deviceId with
        | Some (a, dev) =>
            (* the object of the registry is updated in place *)
            let dev' :=
              {| Device.deviceId := Device.deviceId dev;
                 Device.ip := Device.ip dev;
                 Device.socketId := Some (Socket.id s);
                 Device.lastSeen := seen;
                 Device.lat := lat;
                 Device.lon := lon |} in
            {| devices := Map_set deviceId a (devices st);
               heap := <[a := dev']> (heap st);
               data := data st |}
        | None =>
            (* { deviceId, ip }, a new object *)
            let dev' :=
              {| Device.deviceId := deviceId;
                 Device.ip := Socket.ip s;
                 Device.socketId := Some (Socket.id s);
                 Device.lastSeen := seen;
                 Device.lat := lat;
                 Device.lon := lon |} in
            {| devices := Map_set deviceId (length (heap st)) (devices st);
               heap := heap st ++ [dev'];
               data := data st |}
        end in
      (st', [appendCsv deviceId row; io_emit (sensor_data_msg deviceId row)])
  end.

(** [socket.on('disconnect', (reason) => ...)] *)
Definition on_disconnect (s : Socket.t) (rt : Runtime) (st : State)
    : State * list effect :=
  match data st !! Socket.id s with
  | Some deviceId =>
      if decide (deviceId = "") then (st, [])
      else
        match get_device st deviceId with     (* devices.has(deviceId) *)
        | Some (a, dev) =>
            let dev' :=
              {| Device.deviceId := Device.deviceId dev;
                 Device.ip := Device.ip dev;
                 Device.socketId := None;
                 Device.lastSeen := date1 rt;
                 Device.lat := Device.lat dev;
                 Device.lon := Device.lon dev |} in
            let st' :=
              {| devices := Map_set deviceId a (devices st);
                 heap := <[a := dev']> (heap st);
                 data := data st |} in
            (st', [io_emit (devices_msg (read (heap st') (snapshot st')))])
        | None => (st, [])
        end
  | None => (st, [])
  end.

(** ** Events and runs *)

Inductive event : Type :=
  | Connection (s : Socket.t)
  | Register (s : Socket.t) (rt : Runtime) (payload : option Payload.t)
  | SensorData (s : Socket.t) (rt : Runtime) (payload : option Payload.t)
  | Disconnect (s : Socket.t) (rt : Runtime).

Definition step (st : State) (e : event) : State * list effect :=
  match e with
  | Connection s => on_connection s st
  | Register s rt payload => on_register s rt payload st
  | SensorData s rt payload => on_sensor_data s rt payload st
  | Disconnect s rt => on_disconnect s rt st
  end.

(** The events are handled one at a time, each to completion; the effects
    are listed in the order in which they happen. *)
Fixpoint run (st : State) (es : list event) : State * list effect :=
  match es with
  | [] => (st, [])
  | e :: es' =>
      let '(st1, out1) := step st e in
      let '(st2, out2) := run st1 es' in
      (st2, out1 ++ out2)
  end.

Definition exec (st : State) (es : list event) : State := (run st es).1.

Definition output (st : State) (es : list event) : list effect := (run st es).2.

(** ** The invariant of the registry *)

(** What a [Map] of objects gives for free and the model has to state: a key
    occurs once, no object is stored under two keys, every reference is an
    object of the store, and an object is stored under its own [deviceId]. *)
Record wf (st : State) : Prop := {
  wf_keys : NoDup (devices st).*1;
  wf_refs : NoDup (devices st).*2;
  wf_objs : ∀ k a, (k, a) ∈ devices st →
            ∃ dev, heap st !! a = Some dev ∧ Device.deviceId dev = k }.



(** A coordinate or an axis that the payload does not carry. *)
Definition missing (v : value) : Prop := v = VUndefined ∨ v = VNull.

(** The number an axis of a row holds for the value [v] of the payload, by
    the kind of [v]: a number is kept; a missing axis and [false] give [0] and
    [true] gives [1]; a string gives the number it reads as, and [0] when it
    reads as no number or as zero. *)
Definition normalised (v : value) (r : float) : Prop :=
  match v with
  | VNum f => r = f
  | VUndefined | VNull | VBool false => r = 0%float
  | VBool true => r = 1%float
  | VStr str =>
      if falsy_number (StringToNumber str) then r = 0%float
      else r = StringToNumber str
  end.

(** A [register] that resolves the id [k]. *)
Definition registers_id (k : string) (e : event) : bool :=
  match e with
  | Register s rt payload =>
      bool_decide (str_or (payload ≫= Payload.deviceId) (synth_id rt) = k)
  | _ => false
  end.

(** Any event but a [register] of the connection [sid]. *)
Definition not_register_of (sid : string) (e : event) : Prop :=
  match e with
  | Register s _ _ => Socket.id s ≠ sid
  | _ => True
  end.

(** A [register] event of connection [s] whose payload carries the id [d]. *)
Definition register_of (d : string) (c : Socket.t * Runtime * Payload.t) : event :=
  let '(s, rt, p) := c in Register s rt (Some (Payload.with_deviceId d p)).

(** The deviceIds of the registry, in the order of the [Map]. *)
Definition ids (st : State) : list string := (devices st).*1.

(** The listing: what [GET /devices] answers and what a [devices] message
    carries when it is built in state [st]. *)
Definition listing (st : State) : list Device.t := read (heap st) (snapshot st).

(** The id whose record an event writes, when it writes one. *)
Definition target (st : State) (e : event) : option string :=
  match e with
  | Connection _ => None
  | Register s rt payload =>
      Some (str_or (payload ≫= Payload.deviceId) (synth_id rt))
  | SensorData s rt (Some p) => Some (sample_id s rt p st)
  | SensorData s rt None => None
  | Disconnect s rt => data st !! Socket.id s
  end.

(** The samples handed to [appendCsv], and the samples emitted to all as
    [sensor-data], each in the order of the effects. *)
Definition persisted (out : list effect) : list (string * Row.t) :=
  omap (λ eff, match eff with appendCsv d row => Some (d, row) | _ => None end)
       out.

Definition broadcast (out : list effect) : list (string * Row.t) :=
  omap (λ eff, match eff with
               | io_emit (sensor_data_msg d row) => Some (d, row)
               | _ => None
               end) out.

(** The listings that the [devices] messages of a run carry. *)
Definition devices_messages (out : list effect) : list (list Device.t) :=
  omap (λ eff, match eff with
               | socket_emit _ (devices_msg l) | io_emit (devices_msg l) => Some l
               | _ => None
               end) out.

(** The record [register] stores for an id that the registry does not
    know. *)
Definition fresh_entry (d : string) (s : Socket.t) (rt : Runtime) : Device.t :=
  {| Device.deviceId := d;
     Device.ip := Socket.ip s;
     Device.socketId := Some (Socket.id s);
     Device.lastSeen := date1 rt;
     Device.lat := VNull;
     Device.lon := VNull |}.

(** Every id a connection is bound to is non-empty and has a record. *)
Definition bound_ok (st : State) : Prop :=
  ∀ sid d, data st !! sid = Some d → d ≠ "" ∧ d ∈ ids st.

(** A registration: the id a [register] carries, with the connection, the
    runtime and the rest of the payload. *)
Definition registration : Type := string * (Socket.t * Runtime * Payload.t).

Definition register_event (r : registration) : event := register_of r.1 r.2.

Definition registered_entry (r : registration) : Device.t :=
  fresh_entry r.1 r.2.1.1 r.2.1.2.

(** ** Lemmas on the [Map] *)

Lemma Map_get_set_eq k a m : Map_get k (Map_set k a m) = Some a.
Proof.
  induction m as [|[k' a'] m IH]; simpl.
  - by rewrite decide_True.
  - destruct (decide (k = k')) as [->|Hne]; simpl.
    + by rewrite decide_True.
    + by rewrite decide_False.
Qed.

Lemma Map_get_set_ne k k' a m :
  k ≠ k' → Map_get k' (Map_set k a m) = Map_get k' m.
Proof.
  intros Hne. induction m as [|[k0 a0] m IH]; simpl.
  - by rewrite decide_False.
  - destruct (decide (k = k0)) as [->|Hk]; simpl.
    + by rewrite !decide_False.
    + destruct (decide (k' = k0)); [done|apply IH].
Qed.

Lemma Map_get_None k m : Map_get k m = None ↔ k ∉ m.*1.
Proof.
  induction m as [|[k' a'] m IH]; simpl.
  - split; [intros _; apply not_elem_of_nil|done].
  - rewrite not_elem_of_cons. destruct (decide (k = k')) as [->|Hne].
    + split; [done|intros [? _]; done].
    + rewrite IH. split; [by intros ?|by intros [_ ?]].
Qed.

Lemma Map_get_Some_elem k a m : Map_get k m = Some a → (k, a) ∈ m.
Proof.
  induction m as [|[k' a'] m IH]; simpl; [done|].
  destruct (decide (k = k')) as [->|Hne].
  - intros [= ->]. apply list_elem_of_here.
  - intros H. apply list_elem_of_further. by apply IH.
Qed.

Lemma Map_elem_get k a m : NoDup m.*1 → (k, a) ∈ m → Map_get k m = Some a.
Proof.
  induction m as [|[k' a'] m IH]; simpl.
  - intros _ H. by apply elem_of_nil in H.
  - rewrite NoDup_cons. intros [Hk Hnd] [Heq|Hin]%elem_of_cons.
    + injection Heq as -> ->. by rewrite decide_True.
    + destruct (decide (k = k')) as [->|Hne]; [|by apply IH].
      exfalso. apply Hk. apply list_elem_of_fmap. by exists (k', a).
Qed.

(** Setting a key that is present keeps the keys and their order. *)
Lemma Map_set_keys_present k a m :
  k ∈ m.*1 → (Map_set k a m).*1 = m.*1.
Proof.
  induction m as [|[k' a'] m IH]; cbn [Map_set].
  - intros H. by apply elem_of_nil in H.
  - rewrite fmap_cons. destruct (decide (k = k')) as [->|Hne]; [done|].
    intros [?|Hin]%elem_of_cons; [done|].
    rewrite fmap_cons. f_equal. by apply IH.
Qed.

(** Setting a new key appends it. *)
Lemma Map_set_absent k a m : k ∉ m.*1 → Map_set k a m = m ++ [(k, a)].
Proof.
  induction m as [|[k' a'] m IH]; cbn [Map_set]; [done|].
  rewrite fmap_cons, not_elem_of_cons. intros [Hne Hnin].
  rewrite decide_False by done. by rewrite IH.
Qed.

(** Storing again the reference a key already has changes nothing. *)
Lemma Map_set_same k a m : Map_get k m = Some a → Map_set k a m = m.
Proof.
  induction m as [|[k' a'] m IH]; simpl; [done|].
  destruct (decide (k = k')) as [->|Hne].
  - by intros [= ->].
  - intros H. by rewrite IH.
Qed.

Lemma Map_set_refs k a m x : x ∈ (Map_set k a m).*2 → x = a ∨ x ∈ m.*2.
Proof.
  induction m as [|[k' a'] m IH]; cbn [Map_set].
  - rewrite fmap_cons. intros [->|H]%elem_of_cons; [by left|by right].
  - destruct (decide (k = k')) as [->|Hne]; rewrite !fmap_cons.
    + intros [->|H]%elem_of_cons; [by left|].
      right. by apply list_elem_of_further.
    + intros [->|H]%elem_of_cons; [right; apply list_elem_of_here|].
      destruct (IH H) as [?|?]; [by left|].
      right. by apply list_elem_of_further.
Qed.

Lemma Map_set_keys_NoDup k a m : NoDup m.*1 → NoDup (Map_set k a m).*1.
Proof.
  intros Hnd. destruct (decide (k ∈ m.*1)) as [Hin|Hnin].
  - by rewrite Map_set_keys_present.
  - rewrite Map_set_absent, fmap_app by done.
    apply NoDup_app. split; [done|]. split; [|apply NoDup_singleton].
    intros x Hx ->%list_elem_of_singleton. done.
Qed.

Lemma Map_set_refs_NoDup k a m :
  NoDup m.*2 → a ∉ m.*2 → NoDup (Map_set k a m).*2.
Proof.
  induction m as [|[k' a'] m IH]; cbn [Map_set].
  - intros _ _. apply NoDup_singleton.
  - rewrite fmap_cons, NoDup_cons, not_elem_of_cons. intros [Ha' Hnd] [Hne Hnin].
    destruct (decide (k = k')) as [->|Hk]; rewrite fmap_cons; apply NoDup_cons.
    + done.
    + split; [|by apply IH].
      intros [Heq|?]%Map_set_refs; simpl in *; [congruence|done].
Qed.

Lemma Map_set_elem k a m k' a' :
  NoDup m.*1 →
  (k', a') ∈ Map_set k a m ↔ (k' = k ∧ a' = a) ∨ (k' ≠ k ∧ (k', a') ∈ m).
Proof.
  intros Hnd. split.
  - intros Hin. apply Map_elem_get in Hin; [|by apply Map_set_keys_NoDup].
    destruct (decide (k' = k)) as [->|Hne].
    + rewrite Map_get_set_eq in Hin. left. by injection Hin as ->.
    + rewrite Map_get_set_ne in Hin by done.
      right. split; [done|]. by apply Map_get_Some_elem.
  - intros [[-> ->]|[Hne Hin]]; apply Map_get_Some_elem.
    + apply Map_get_set_eq.
    + rewrite Map_get_set_ne by done. by apply Map_elem_get.
Qed.

(** ** The invariant holds along every run *)

Lemma get_device_Some st k a dev :
  get_device st k = Some (a, dev) ↔
  Map_get k (devices st) = Some a ∧ heap st !! a = Some dev.
Proof.
  unfold get_device. destruct (Map_get k (devices st)) as [a0|]; simpl.
  - destruct (heap st !! a0) as [d0|] eqn:Hd; simpl.
    + split; [intros [= <- <-]; done|]. intros [[= ->] Hd']. congruence.
    + split; [done|]. intros [[= ->] Hd']. congruence.
  - split; [done|]. intros [? _]. done.
Qed.


Lemma wf_init : wf init.
Proof.
  split; simpl; [apply NoDup_nil_2..|].
  intros k a H. by apply elem_of_nil in H.
Qed.

Lemma wf_ref_lt st a : wf st → a ∈ (devices st).*2 → a < length (heap st).
Proof.
  intros Hwf ([k a'] & -> & Hin)%list_elem_of_fmap.
  apply (wf_objs _ Hwf) in Hin as (dev & Hdev & _).
  by apply lookup_lt_Some in Hdev.
Qed.

(** A new object stored under its own id. *)
Lemma wf_alloc st k dev dt :
  wf st → Device.deviceId dev = k →
  wf {| devices := Map_set k (length (heap st)) (devices st);
        heap := heap st ++ [dev];
        data := dt |}.
Proof.
  intros Hwf Hid. split; simpl.
  - apply Map_set_keys_NoDup, Hwf.
  - apply Map_set_refs_NoDup; [apply Hwf|].
    intros Hin%wf_ref_lt; [lia|done].
  - intros k' a' [[-> ->]|[Hne Hin]]%Map_set_elem; [| |apply Hwf].
    + exists dev. split; [|done].
      rewrite lookup_app_r by lia. by rewrite Nat.sub_diag.
    + apply (wf_objs _ Hwf) in Hin as (d & Hd & Hk).
      exists d. split; [|done]. by apply lookup_app_l_Some.
Qed.

(** An object of the registry updated in place, its [deviceId] kept. *)
Lemma wf_update st k a dev dev' dt :
  wf st → get_device st k = Some (a, dev) →
  Device.deviceId dev' = Device.deviceId dev →
  wf {| devices := Map_set k a (devices st);
        heap := <[a := dev']> (heap st);
        data := dt |}.
Proof.
  intros Hwf [Hk Hdev]%get_device_Some Hid.
  rewrite (Map_set_same _ _ _ Hk). split; simpl; [apply Hwf..|].
  intros k' a' Hin. apply (wf_objs _ Hwf) in Hin as (d & Hd & Hk').
  destruct (decide (a' = a)) as [->|Hne].
  - exists dev'. split; [|congruence].
    apply list_lookup_insert_eq. by apply lookup_lt_Some in Hd.
  - exists d. split; [|done]. by rewrite list_lookup_insert_ne.
Qed.

Lemma step_wf st e : wf st → wf (step st e).1.
Proof.
  intros Hwf. destruct e as [s|s rt p|s rt [p|]|s rt]; simpl; try done.
  - by apply wf_alloc.
  - destruct (get_device st _) as [[a dev]|] eqn:Hget.
    + by eapply wf_update.
    + by apply wf_alloc.
  - unfold on_disconnect. destruct (data st !! Socket.id s) as [d|]; [|done].
    destruct (decide (d = "")); [done|].
    destruct (get_device st d) as [[a dev]|] eqn:Hget; [|done].
    by eapply wf_update.
Qed.

Lemma exec_nil st : exec st [] = st.
Proof. done. Qed.

Lemma exec_cons st e es : exec st (e :: es) = exec (step st e).1 es.
Proof.
  unfold exec. cbn [run]. destruct (step st e) as [st1 out1]. cbn [fst].
  by destruct (run st1 es).
Qed.

Lemma exec_app st es1 es2 : exec st (es1 ++ es2) = exec (exec st es1) es2.
Proof.
  revert st. induction es1 as [|e es1 IH]; intros st; [done|].
  by rewrite <- app_comm_cons, !exec_cons, IH.
Qed.

Lemma exec_wf st es : wf st → wf (exec st es).
Proof.
  revert st. induction es as [|e es IH]; intros st Hwf; [done|].
  rewrite exec_cons. by apply IH, step_wf.
Qed.

(** ** Registration *)




(** What [register] leaves in the registry, whatever was there before. *)
Lemma on_register_entry s rt payload st :
  let d := str_or (payload ≫= Payload.deviceId) (synth_id rt) in
  let st' := (on_register s rt payload st).1 in
  ∃ dev,
    get_device st' d = Some (length (heap st), dev) ∧
    Device.deviceId dev = d ∧
    Device.ip dev = Socket.ip s ∧
    Device.socketId dev = Some (Socket.id s) ∧
    Device.lastSeen dev = date1 rt.
Proof.
  intros d st'. eexists. split.
  - apply get_device_Some. simpl. split; [apply Map_get_set_eq|].
    rewrite lookup_app_r by lia. rewrite Nat.sub_diag. reflexivity.
  - by repeat split.
Qed.


(** ** Samples *)

Lemma axis_normalised v : normalised v (axis v).
Proof.
  destruct v as [| |[|]|f|str]; unfold normalised, axis;
    cbn [is_number Number]; try reflexivity.
  by destruct (falsy_number (StringToNumber str)).
Qed.

(** The two effects of a sample, in their order, and the row they carry. *)
Lemma on_sensor_data_output s rt p st :
  (on_sensor_data s rt (Some p) st).2 =
  let row :=
    {| Row.time := js_or (Payload.time p) (VStr (date1 rt));
       Row.x := axis (Payload.x p);
       Row.y := axis (Payload.y p);
       Row.z := axis (Payload.z p);
       Row.lat := js_or (Payload.lat p) (VStr "");
       Row.lon := js_or (Payload.lon p) (VStr "");
       Row.ip := Socket.ip s |} in
  [appendCsv (sample_id s rt p st) row;
   io_emit (sensor_data_msg (sample_id s rt p st) row)].
Proof. reflexivity. Qed.

(** The record a sample leaves in the registry. *)
Lemma on_sensor_data_entry s rt p st :
  let st' := (on_sensor_data s rt (Some p) st).1 in
  ∃ a dev,
    get_device st' (sample_id s rt p st) = Some (a, dev) ∧
    Device.socketId dev = Some (Socket.id s) ∧
    Device.lat dev = js_or (Payload.lat p) (VStr "") ∧
    Device.lon dev = js_or (Payload.lon p) (VStr "").
Proof.
  cbn [on_sensor_data fst]. fold (sample_id s rt p st).
  destruct (get_device st (sample_id s rt p st)) as [[a dev]|] eqn:Hget.
  - apply get_device_Some in Hget as [Hk Hdev].
    eexists a, _. split.
    { apply get_device_Some. cbn [devices heap]. split; [apply Map_get_set_eq|].
      apply list_lookup_insert_eq. by apply lookup_lt_Some in Hdev. }
    by repeat split.
  - eexists (length (heap st)), _. split.
    { apply get_device_Some. cbn [devices heap]. split; [apply Map_get_set_eq|].
      rewrite lookup_app_r by lia. rewrite Nat.sub_diag. reflexivity. }
    by repeat split.
Qed.

(** An object of the registry is in the listing. *)
Lemma get_device_listed st k a dev :
  get_device st k = Some (a, dev) → dev ∈ read (heap st) (snapshot st).
Proof.
  intros [Hk Hdev]%get_device_Some. unfold read, snapshot, Map_values.
  apply list_elem_of_omap. exists a. split; [|done].
  apply list_elem_of_fmap. exists (k, a). split; [done|].
  by apply Map_get_Some_elem.
Qed.

Lemma js_or_missing v d : missing v → js_or v d = d.
Proof. by intros [-> | ->]. Qed.

Lemma js_or_truthy v d : ToBoolean v = true → js_or v d = v.
Proof. unfold js_or. by intros ->. Qed.

(** C5, as the code has it. The row of a sample holds, for each axis, the
    number that the kind of the value of the payload decides: a number is
    kept, a missing axis, [false] and a string that reads as no number or as
    zero give [0], a string that reads as another number gives that number,
    and [true] gives [1] (so [{x: "abc", y: null, z: undefined}] gives
    [0, 0, 0], ['abc'] being no numeric literal). With the time, the
    coordinates and the address, that one row is handed to [appendCsv] and
    then emitted to all; a payload that is absent altogether has no effect
    and leaves the state as it was. *)
Theorem C5_axes_normalised_and_absent_payload_dropped s rt st :
  is_nan (StringToNumber "abc") = true →
  (∀ p, ∃ row,
     (on_sensor_data s rt (Some p) st).2 =
       [appendCsv (sample_id s rt p st) row;
        io_emit (sensor_data_msg (sample_id s rt p st) row)] ∧
     normalised (Payload.x p) (Row.x row) ∧
     normalised (Payload.y p) (Row.y row) ∧
     normalised (Payload.z p) (Row.z row) ∧
     Row.time row = js_or (Payload.time p) (VStr (date1 rt)) ∧
     Row.lat row = js_or (Payload.lat p) (VStr "") ∧
     Row.lon row = js_or (Payload.lon p) (VStr "") ∧
     Row.ip row = Socket.ip s ∧
     (Payload.x p = VStr "abc" → Payload.y p = VNull → Payload.z p = VUndefined →
      Row.x row = 0%float ∧ Row.y row = 0%float ∧ Row.z row = 0%float)) ∧
  on_sensor_data s rt None st = (st, []).
Proof.
  intros Habc. split; [|done].
  intros p. eexists. split; [apply on_sensor_data_output|].
  cbn [Row.x Row.y Row.z Row.time Row.lat Row.lon Row.ip].
  do 3 (split; [apply axis_normalised|]). do 4 (split; [done|]).
  intros Hx Hy Hz.
  pose proof (axis_normalised (Payload.x p)) as Hnx.
  pose proof (axis_normalised (Payload.y p)) as Hny.
  pose proof (axis_normalised (Payload.z p)) as Hnz.
  rewrite Hx in Hnx. rewrite Hy in Hny. rewrite Hz in Hnz.
  cbn [normalised] in Hnx, Hny, Hnz. unfold falsy_number in Hnx.
  rewrite Habc in Hnx. cbn [orb] in Hnx. rewrite Hx, Hy, Hz. done.
Qed.

(** C6, as the code has it. The same row is handed to [appendCsv] and
    emitted to all; a coordinate that the payload does not carry is the empty
    string in it, and a truthy coordinate of the payload is carried as it
    is. *)
Theorem C6_missing_position_is_the_empty_string s rt p st :
  ∃ row,
    (on_sensor_data s rt (Some p) st).2 =
      [appendCsv (sample_id s rt p st) row;
       io_emit (sensor_data_msg (sample_id s rt p st) row)] ∧
    (missing (Payload.lat p) → Row.lat row = VStr "") ∧
    (missing (Payload.lon p) → Row.lon row = VStr "") ∧
    (ToBoolean (Payload.lat p) = true → Row.lat row = Payload.lat p) ∧
    (ToBoolean (Payload.lon p) = true → Row.lon row = Payload.lon p).
Proof.
  eexists. split; [apply on_sensor_data_output|].
  cbn [Row.lat Row.lon].
  split; [apply js_or_missing|]. split; [apply js_or_missing|].
  split; apply js_or_truthy.
Qed.

(** ** Connections *)

(** C7, as the code has it. A connection that opens with the role [admin]
    is sent the current listing at once, alone, before any effect of a later
    event, and the state is left as it was. *)
Theorem C7_admin_connection_is_sent_listing_first s st es :
  Socket.role s = "admin" →
  run st (Connection s :: es) =
    (exec st es,
     socket_emit (Socket.id s) (devices_msg (read (heap st) (snapshot st)))
       :: output st es).
Proof.
  intros Hrole. unfold exec, output. cbn [run step on_connection].
  rewrite decide_True by done. by destruct (run st es).
Qed.

(** Every other role is sent nothing when it connects. *)
Lemma on_connection_other_role s st :
  Socket.role s ≠ "admin" → on_connection s st = (st, []).
Proof. intros Hrole. unfold on_connection. by rewrite decide_False. Qed.

(** Only [register] writes [socket.data.deviceId]. *)
Lemma step_data st e sid :
  not_register_of sid e → data (step st e).1 !! sid = data st !! sid.
Proof.
  destruct e as [s|s rt p|s rt [p|]|s rt]; cbn [not_register_of step]; try done.
  - intros Hne. cbn [on_register fst data]. by rewrite lookup_insert_ne.
  - intros _. cbn [on_sensor_data fst].
    by destruct (get_device st _) as [[a dev]|].
  - intros _. unfold on_disconnect.
    destruct (data st !! Socket.id s) as [d|]; [|done].
    destruct (decide (d = "")); [done|].
    by destruct (get_device st d) as [[a dev]|].
Qed.

Lemma exec_data st es sid :
  Forall (not_register_of sid) es → data (exec st es) !! sid = data st !! sid.
Proof.
  intros Hes. revert st. induction Hes as [|e es He Hes IH]; intros st; [done|].
  by rewrite exec_cons, IH, step_data.
Qed.

(** The id [register] resolves is never the empty string. *)
Lemma register_id_nonempty (payload : option Payload.t) rt :
  str_or (payload ≫= Payload.deviceId) (synth_id rt) ≠ "".
Proof.
  unfold str_or. destruct (payload ≫= Payload.deviceId) as [d|]; [|done].
  by destruct (decide (d = "")).
Qed.

(** C4, as the code has it. A [register] binds the id it resolves to the
    connection: every later [sensor-data] of the same connection is
    attributed to the id of the latest [register] of that connection,
    whatever deviceId its payload claims, and the binding stays. *)
Theorem C4_samples_attributed_to_latest_register st s rt payload es rt' p' :
  Forall (not_register_of (Socket.id s)) es →
  let d := str_or (payload ≫= Payload.deviceId) (synth_id rt) in
  let st1 := exec st (Register s rt payload :: es) in
  sample_id s rt' p' st1 = d ∧
  (∃ row, (on_sensor_data s rt' (Some p') st1).2 =
            [appendCsv d row; io_emit (sensor_data_msg d row)]) ∧
  data (on_sensor_data s rt' (Some p') st1).1 !! Socket.id s = Some d.
Proof.
  intros Hes d st1.
  assert (data st1 !! Socket.id s = Some d) as Hbound.
  { subst st1. rewrite exec_cons, exec_data by done.
    cbn [step on_register fst data]. apply lookup_insert_eq. }
  assert (sample_id s rt' p' st1 = d) as Hattr.
  { unfold sample_id. rewrite Hbound. cbn [str_or].
    rewrite decide_False; [done|apply register_id_nonempty]. }
  split; [done|]. split.
  - eexists. rewrite on_sensor_data_output, Hattr. reflexivity.
  - rewrite <- Hbound. apply (step_data st1 (SensorData s rt' (Some p'))). done.
Qed.

(** ** Disconnection *)

(** C2, as the code has it. The disconnect of a connection bound to an id
    clears [socketId] and sets [lastSeen] on the record stored under that id,
    whatever handle the record holds at that time; every other object, the
    [Map] and the bindings are left as they were, and the listing is emitted
    to all. *)
Theorem C2_disconnect_clears_record_of_bound_id s rt st d a dev :
  data st !! Socket.id s = Some d → d ≠ "" →
  get_device st d = Some (a, dev) →
  let st' := (on_disconnect s rt st).1 in
  heap st' !! a =
    Some {| Device.deviceId := Device.deviceId dev;
            Device.ip := Device.ip dev;
            Device.socketId := None;
            Device.lastSeen := date1 rt;
            Device.lat := Device.lat dev;
            Device.lon := Device.lon dev |} ∧
  (∀ a', a' ≠ a → heap st' !! a' = heap st !! a') ∧
  devices st' = devices st ∧
  data st' = data st ∧
  (on_disconnect s rt st).2 =
    [io_emit (devices_msg (read (heap st') (snapshot st')))].
Proof.
  intros Hbound Hd Hget st'. subst st'. unfold on_disconnect.
  rewrite Hbound, decide_False, Hget by done. cbn [fst snd heap devices data].
  apply get_device_Some in Hget as [Hk Hdev].
  split; [apply list_lookup_insert_eq; by apply lookup_lt_Some in Hdev|].
  split; [intros a' Hne; by rewrite list_lookup_insert_ne|].
  split; [by apply Map_set_same|done].
Qed.

(** A connection that is bound to no id leaves no trace when it closes. *)
Lemma on_disconnect_unbound s rt st :
  data st !! Socket.id s = None → on_disconnect s rt st = (st, []).
Proof. intros Hnone. unfold on_disconnect. by rewrite Hnone. Qed.

(** C10. A connection that sends [sensor-data] and never a [register] is
    bound to no id: its disconnect leaves the whole state as it was and
    emits nothing, so the record of its last sample keeps the [socketId] of
    the closed connection. *)
Theorem C10_disconnect_without_register_is_no_op st s es rt' p rt :
  data st !! Socket.id s = None →
  Forall (not_register_of (Socket.id s)) es →
  let st1 := exec st (es ++ [SensorData s rt' (Some p)]) in
  on_disconnect s rt st1 = (st1, []) ∧
  ∃ a dev,
    get_device (on_disconnect s rt st1).1 (sample_id s rt' p (exec st es))
      = Some (a, dev) ∧
    Device.socketId dev = Some (Socket.id s).
Proof.
  intros Hnone Hes st1.
  assert (on_disconnect s rt st1 = (st1, [])) as Hnoop.
  { apply on_disconnect_unbound. subst st1. rewrite exec_data; [done|].
    apply Forall_app. split; [done|]. by apply Forall_singleton. }
  split; [done|]. rewrite Hnoop. subst st1.
  rewrite exec_app, exec_cons, exec_nil. cbn [step fst].
  destruct (on_sensor_data_entry s rt' p (exec st es))
    as (a & dev & Hget & Hsock & _).
  by exists a, dev.
Qed.

(** ** Registration of a known id *)

(** C8, as the code has it. A [register] for a known id stores a new object
    under it with the [ip] and the id of the connection and the time of the
    call; a coordinate of the old object is kept as it was when it is truthy
    or [null], and the empty string that a sample without position leaves
    becomes [null]. *)
Theorem C8_register_known_id_keeps_truthy_position s rt payload st a dev :
  let d := str_or (payload ≫= Payload.deviceId) (synth_id rt) in
  get_device st d = Some (a, dev) →
  ∃ a' dev',
    get_device (on_register s rt payload st).1 d = Some (a', dev') ∧
    Device.deviceId dev' = d ∧
    Device.ip dev' = Socket.ip s ∧
    Device.socketId dev' = Some (Socket.id s) ∧
    Device.lastSeen dev' = date1 rt ∧
    (ToBoolean (Device.lat dev) = true ∨ Device.lat dev = VNull →
     Device.lat dev' = Device.lat dev) ∧
    (ToBoolean (Device.lon dev) = true ∨ Device.lon dev = VNull →
     Device.lon dev' = Device.lon dev) ∧
    (Device.lat dev = VStr "" → Device.lat dev' = VNull) ∧
    (Device.lon dev = VStr "" → Device.lon dev' = VNull).
Proof.
  intros d Hget. eexists (length (heap st)), _. split.
  { apply get_device_Some. cbn [on_register fst devices heap].
    split; [apply Map_get_set_eq|].
    rewrite lookup_app_r by lia. rewrite Nat.sub_diag. reflexivity. }
  fold d. rewrite Hget. cbn [Device.deviceId Device.ip Device.socketId
    Device.lastSeen Device.lat Device.lon fmap option_fmap option_map
    from_option snd].
  do 4 (split; [done|]). unfold js_or.
  split; [intros [-> | ->]; done|]. split; [intros [-> | ->]; done|].
  split; intros ->; done.
Qed.

(** ** Snapshots *)

Lemma read_app h arr1 arr2 : read h (arr1 ++ arr2) = read h arr1 ++ read h arr2.
Proof. apply omap_app. Qed.

(** Objects added to the store do not show through an older array. *)
Lemma read_alloc h h' arr :
  (∀ a, a ∈ arr → a < length h) → read (h ++ h') arr = read h arr.
Proof.
  induction arr as [|a arr IH]; intros Hlt; [done|].
  unfold read in *. cbn [omap list_omap].
  rewrite lookup_app_l by (apply Hlt, list_elem_of_here).
  rewrite IH; [done|]. intros a' Hin. by apply Hlt, list_elem_of_further.
Qed.

(** ** The registry along a run *)

Lemma output_cons st e es :
  output st (e :: es) = (step st e).2 ++ output (step st e).1 es.
Proof.
  unfold output. cbn [run]. destruct (step st e) as [st1 out1]. cbn [fst snd].
  by destruct (run st1 es).
Qed.

(** A listed record carries the key it is stored under. *)
Lemma listing_ids st : wf st → Device.deviceId <$> listing st = ids st.
Proof.
  intros Hwf. unfold listing, ids, snapshot, Map_values, read.
  pose proof (wf_objs _ Hwf) as Hobj. revert Hobj.
  generalize (heap st) as h. induction (devices st) as [|[k a] m IH]; [done|].
  intros h Hobj.
  destruct (Hobj k a) as (dev & Hdev & Hid); [apply list_elem_of_here|].
  rewrite !fmap_cons. cbn [omap list_omap snd fst]. rewrite Hdev, fmap_cons, Hid.
  f_equal. apply IH. intros k' a' Hin. apply Hobj. by apply list_elem_of_further.
Qed.

(** X1. In every state that a run of events reaches from the empty registry,
    the listing has one record for each key of the [Map], in the order of
    the [Map], every record carries the id it is stored under, and no id
    occurs twice. *)
Theorem listing_has_each_id_once es :
  let st := exec init es in
  Device.deviceId <$> listing st = ids st ∧
  NoDup (Device.deviceId <$> listing st) ∧
  length (listing st) = length (devices st).
Proof.
  intros st. assert (wf st) as Hwf by apply exec_wf, wf_init.
  pose proof (listing_ids st Hwf) as Hids.
  split; [done|]. split.
  - rewrite Hids. apply Hwf.
  - rewrite <- (length_fmap Device.deviceId), Hids. unfold ids.
    by rewrite length_fmap.
Qed.

Lemma Map_set_ids_prefix k a m : m.*1 `prefix_of` (Map_set k a m).*1.
Proof.
  destruct (decide (k ∈ m.*1)) as [Hin|Hnin].
  - by rewrite Map_set_keys_present.
  - rewrite Map_set_absent, fmap_app by done. by apply prefix_app_r.
Qed.

Lemma step_ids_prefix st e : ids st `prefix_of` ids (step st e).1.
Proof.
  unfold ids. destruct e as [s|s rt p|s rt [p|]|s rt]; cbn [step]; try done.
  - apply Map_set_ids_prefix.
  - cbn [on_sensor_data fst].
    destruct (get_device st _) as [[a dev]|]; apply Map_set_ids_prefix.
  - unfold on_disconnect. destruct (data st !! Socket.id s) as [d|]; [|done].
    destruct (decide (d = "")); [done|].
    destruct (get_device st d) as [[a dev]|]; [|done].
    apply Map_set_ids_prefix.
Qed.

(** X2. No event removes a record or moves one: the ids of the registry
    before a run are a prefix of the ids after it, so a device keeps the
    place of its first registration in every later listing. *)
Theorem ids_only_grow st es : ids st `prefix_of` ids (exec st es).
Proof.
  revert st. induction es as [|e es IH]; intros st; [done|].
  rewrite exec_cons. etrans; [apply step_ids_prefix|apply IH].
Qed.

Lemma Map_get_None_get_device st k :
  Map_get k (devices st) = None → get_device st k = None.
Proof. intros Hk. unfold get_device. by rewrite Hk. Qed.

(** The listing after a new object is stored under an unknown id. *)
Lemma listing_alloc st d dev dt :
  wf st → d ∉ ids st →
  listing {| devices := Map_set d (length (heap st)) (devices st);
             heap := heap st ++ [dev];
             data := dt |} = listing st ++ [dev].
Proof.
  intros Hwf Hd. unfold listing, snapshot, Map_values. cbn [devices heap].
  rewrite Map_set_absent, fmap_app, read_app by done. f_equal.
  - apply read_alloc. intros a Hin. by apply wf_ref_lt.
  - unfold read. cbn [fmap list_fmap omap list_omap snd].
    rewrite lookup_app_r by lia. by rewrite Nat.sub_diag.
Qed.

(** [register] for an id that the registry does not know. *)
Lemma on_register_fresh s rt payload st :
  let d := str_or (payload ≫= Payload.deviceId) (synth_id rt) in
  wf st → d ∉ ids st →
  listing (on_register s rt payload st).1 = listing st ++ [fresh_entry d s rt] ∧
  ids (on_register s rt payload st).1 = ids st ++ [d].
Proof.
  intros d Hwf Hd. cbn [on_register fst]. fold d.
  rewrite Map_get_None_get_device by by apply Map_get_None.
  split; [by apply listing_alloc|].
  unfold ids. cbn [devices]. by rewrite Map_set_absent, fmap_app.
Qed.

Lemma registrations_listing st (l : list registration) :
  wf st → NoDup l.*1 → Forall (λ d, d ≠ "" ∧ d ∉ ids st) l.*1 →
  listing (exec st (register_event <$> l)) = listing st ++ (registered_entry <$> l).
Proof.
  revert st. induction l as [|[d [[s rt] p]] l IH]; intros st Hwf Hnd Hall.
  - by rewrite app_nil_r.
  - rewrite fmap_cons in Hnd, Hall. cbn [fst] in Hnd, Hall.
    apply NoDup_cons in Hnd as [Hd Hnd]. apply Forall_cons in Hall as [[Hne Hfresh] Hall].
    rewrite !fmap_cons, exec_cons.
    unfold register_event at 1. cbn [fst snd register_of step].
    pose proof (on_register_fresh s rt (Some (Payload.with_deviceId d p)) st) as Hreg.
    cbn [mbind option_bind Payload.with_deviceId Payload.deviceId str_or] in Hreg.
    rewrite decide_False in Hreg by done.
    destruct (Hreg Hwf Hfresh) as [Hlist Hids].
    rewrite IH.
    + rewrite Hlist, <- app_assoc. done.
    + apply (step_wf st (Register s rt _) Hwf).
    + done.
    + rewrite Hids. apply Forall_forall. intros x Hx.
      rewrite Forall_forall in Hall. destruct (Hall x Hx) as [Hx1 Hx2].
      split; [done|].
      rewrite elem_of_app, list_elem_of_singleton. intros [?| ->]; [done|].
      by apply Hd.
Qed.

(** X3. When [n] connections register [n] distinct non-empty ids on the
    empty registry, the listing has exactly [n] records, in the order of the
    registrations, each with the id registered, the address and the id of its
    connection, the time of its call, and no position. *)
Theorem distinct_registrations_are_listed_in_order (l : list registration) :
  NoDup l.*1 → Forall (λ d, d ≠ "") l.*1 →
  listing (exec init (register_event <$> l)) = registered_entry <$> l.
Proof.
  intros Hnd Hne.
  rewrite registrations_listing; [done|apply wf_init|done|].
  eapply Forall_impl; [exact Hne|]. intros d Hd. split; [done|].
  apply not_elem_of_nil.
Qed.

(** ** What an event leaves alone *)

(** An object is stored under one key. *)
Lemma Map_ref_key (m : list (string * loc)) k k' a :
  NoDup m.*2 → (k, a) ∈ m → (k', a) ∈ m → k = k'.
Proof.
  induction m as [|[k0 a0] m IH]; [intros _ H; by apply elem_of_nil in H|].
  rewrite fmap_cons, NoDup_cons. cbn [snd]. intros [Ha0 Hnd].
  assert (∀ k1, (k1, a) ∈ m → a ∈ m.*2) as Hin.
  { intros k1 H. apply list_elem_of_fmap. by exists (k1, a). }
  intros [Heq1|H1]%elem_of_cons [Heq2|H2]%elem_of_cons.
  - congruence.
  - injection Heq1 as -> ->. exfalso. by eapply Ha0, Hin.
  - injection Heq2 as -> ->. exfalso. by eapply Ha0, Hin.
  - by apply IH.
Qed.

Lemma get_device_alloc st d dev dt k :
  wf st → k ≠ d →
  get_device {| devices := Map_set d (length (heap st)) (devices st);
                heap := heap st ++ [dev];
                data := dt |} k = get_device st k.
Proof.
  intros Hwf Hne. unfold get_device. cbn [devices heap].
  rewrite Map_get_set_ne by done.
  destruct (Map_get k (devices st)) as [a|] eqn:Hk; [|done]. cbn.
  apply Map_get_Some_elem, (wf_objs _ Hwf) in Hk as (dev0 & Hdev0 & _).
  by rewrite (lookup_app_l_Some _ _ _ _ Hdev0), Hdev0.
Qed.

Lemma get_device_update st d a dev' dt k :
  wf st → Map_get d (devices st) = Some a → k ≠ d →
  get_device {| devices := Map_set d a (devices st);
                heap := <[a := dev']> (heap st);
                data := dt |} k = get_device st k.
Proof.
  intros Hwf Hd Hne. unfold get_device. cbn [devices heap].
  rewrite Map_get_set_ne by done.
  destruct (Map_get k (devices st)) as [a'|] eqn:Hk; [|done]. cbn.
  rewrite list_lookup_insert_ne; [done|].
  intros <-. apply Hne. symmetry.
  eapply Map_ref_key; [apply Hwf|by apply Map_get_Some_elem..].
Qed.

(** X4. An event writes the record of one id at most: the record stored
    under any other id is the same object, with the same fields, after the
    event as before. *)
Theorem event_leaves_other_records st e k :
  wf st → target st e ≠ Some k →
  get_device (step st e).1 k = get_device st k.
Proof.
  intros Hwf Hk.
  destruct e as [s|s rt p|s rt [p|]|s rt]; cbn [step target] in *; try done.
  - apply get_device_alloc; [done|]. congruence.
  - cbn [on_sensor_data fst].
    destruct (get_device st (sample_id s rt p st)) as [[a dev]|] eqn:Hget.
    + apply get_device_Some in Hget as [Hget _].
      apply get_device_update; [done..|congruence].
    + apply get_device_alloc; [done|congruence].
  - unfold on_disconnect. destruct (data st !! Socket.id s) as [d|]; [|done].
    destruct (decide (d = "")); [done|].
    destruct (get_device st d) as [[a dev]|] eqn:Hget; [|done].
    apply get_device_Some in Hget as [Hget _]. cbn [fst].
    apply get_device_update; [done..|congruence].
Qed.

(** ** Bound connections *)

Lemma step_bound_ok st e : bound_ok st → bound_ok (step st e).1.
Proof.
  intros Hb sid d Hsid.
  assert (data st !! sid = Some d → d ≠ "" ∧ d ∈ ids (step st e).1) as Hold.
  { intros [Hne Hin]%Hb. split; [done|].
    eapply elem_of_prefix; [exact Hin|apply step_ids_prefix]. }
  destruct e as [s|s rt p|s rt [p|]|s rt]; cbn [step] in *; try by apply Hold.
  - destruct (decide (Socket.id s = sid)) as [<-|Hne].
    + cbn [on_register fst data] in Hsid. rewrite lookup_insert_eq in Hsid.
      injection Hsid as <-. split; [apply register_id_nonempty|].
      unfold ids. cbn [on_register fst devices].
      apply list_elem_of_fmap. eexists (_, _). split; [done|].
      apply Map_get_Some_elem, Map_get_set_eq.
    + apply Hold. cbn [on_register fst data] in Hsid.
      by rewrite lookup_insert_ne in Hsid.
  - apply Hold. rewrite <- Hsid. symmetry.
    by apply (step_data st (SensorData s rt (Some p))).
  - apply Hold. rewrite <- Hsid. symmetry.
    by apply (step_data st (Disconnect s rt)).
Qed.

Lemma exec_bound_ok st es : bound_ok st → bound_ok (exec st es).
Proof.
  revert st. induction es as [|e es IH]; intros st Hb; [done|].
  rewrite exec_cons. by apply IH, step_bound_ok.
Qed.

Lemma ids_get_device st d : wf st → d ∈ ids st → is_Some (get_device st d).
Proof.
  intros Hwf ([k a] & -> & Hin)%list_elem_of_fmap. cbn [fst].
  destruct (wf_objs _ Hwf _ _ Hin) as (dev & Hdev & _).
  exists (a, dev). apply get_device_Some. split; [|done].
  apply Map_elem_get; [apply Hwf|done].
Qed.

(** X5. In every state reached from the empty registry, a connection that
    is bound to an id has a record under it: the test [devices.has(deviceId)]
    of the disconnect handler never fails for a registered connection, whose
    disconnect therefore always clears the handle of that record, sets its
    [lastSeen], and emits the listing to all. *)
Theorem registered_connection_always_goes_offline es s rt d :
  let st := exec init es in
  data st !! Socket.id s = Some d →
  ∃ a dev,
    get_device st d = Some (a, dev) ∧
    get_device (on_disconnect s rt st).1 d =
      Some (a, {| Device.deviceId := Device.deviceId dev;
                  Device.ip := Device.ip dev;
                  Device.socketId := None;
                  Device.lastSeen := date1 rt;
                  Device.lat := Device.lat dev;
                  Device.lon := Device.lon dev |}) ∧
    (on_disconnect s rt st).2 =
      [io_emit (devices_msg (listing (on_disconnect s rt st).1))].
Proof.
  intros st Hbound.
  assert (bound_ok st) as Hb.
  { apply exec_bound_ok. intros sid d' H. cbn [init data] in H.
    by rewrite lookup_empty in H. }
  destruct (Hb _ _ Hbound) as [Hne Hin].
  destruct (ids_get_device st d) as [[a dev] Hget];
    [apply exec_wf, wf_init|done|].
  exists a, dev. split; [done|].
  unfold on_disconnect. rewrite Hbound, decide_False, Hget by done.
  cbn [fst snd]. split; [|done].
  apply get_device_Some in Hget as [Hk Hdev].
  apply get_device_Some. cbn [devices heap]. split; [apply Map_get_set_eq|].
  apply list_lookup_insert_eq. by apply lookup_lt_Some in Hdev.
Qed.

(** ** Samples and the registry *)

(** X6. A sample for a device that the registry knows updates its record
    in place: the object keeps its address, its [deviceId] and its [ip] (the
    address of the sampling connection is not stored), the [Map] and the
    number of objects are unchanged, and nothing but the sample itself is
    emitted. *)
Theorem sample_for_known_device_updates_in_place s rt p st a dev :
  get_device st (sample_id s rt p st) = Some (a, dev) →
  let st' := (on_sensor_data s rt (Some p) st).1 in
  devices st' = devices st ∧
  length (heap st') = length (heap st) ∧
  (∃ dev', heap st' !! a = Some dev' ∧
           Device.deviceId dev' = Device.deviceId dev ∧
           Device.ip dev' = Device.ip dev ∧
           Device.socketId dev' = Some (Socket.id s)) ∧
  devices_messages (on_sensor_data s rt (Some p) st).2 = [].
Proof.
  intros Hget st'. subst st'. cbn [on_sensor_data fst snd]. rewrite Hget.
  apply get_device_Some in Hget as [Hk Hdev]. cbn [devices heap].
  split; [by apply Map_set_same|]. split; [apply length_insert|].
  split; [|done]. eexists.
  split; [apply list_lookup_insert_eq; by apply lookup_lt_Some in Hdev|done].
Qed.

(** X7. A sample whose id the registry does not know registers the device
    implicitly: a record with that id, the address and the id of the
    connection and the coordinates of the sample is added at the end of the
    listing, every other record stays, and no [devices] message tells the
    dashboards. *)
Theorem sample_for_unknown_device_adds_record s rt p st :
  wf st → sample_id s rt p st ∉ ids st →
  let st' := (on_sensor_data s rt (Some p) st).1 in
  listing st' =
    listing st ++
    [{| Device.deviceId := sample_id s rt p st;
        Device.ip := Socket.ip s;
        Device.socketId := Some (Socket.id s);
        Device.lastSeen :=
          if ToBoolean (Payload.time p) then date1 rt else date2 rt;
        Device.lat := js_or (Payload.lat p) (VStr "");
        Device.lon := js_or (Payload.lon p) (VStr "") |}] ∧
  ids st' = ids st ++ [sample_id s rt p st] ∧
  devices_messages (on_sensor_data s rt (Some p) st).2 = [].
Proof.
  intros Hwf Hid st'. subst st'. cbn [on_sensor_data fst snd].
  rewrite Map_get_None_get_device by by apply Map_get_None.
  split; [by apply listing_alloc|]. split; [|done].
  unfold ids. cbn [devices]. by rewrite Map_set_absent, fmap_app.
Qed.

Lemma persisted_app out1 out2 :
  persisted (out1 ++ out2) = persisted out1 ++ persisted out2.
Proof. apply omap_app. Qed.

Lemma broadcast_app out1 out2 :
  broadcast (out1 ++ out2) = broadcast out1 ++ broadcast out2.
Proof. apply omap_app. Qed.

Lemma step_persisted_broadcast st e :
  persisted (step st e).2 = broadcast (step st e).2.
Proof.
  destruct e as [s|s rt p|s rt [p|]|s rt]; cbn [step]; try done.
  - unfold on_connection. cbn [snd]. by destruct (decide _).
  - unfold on_disconnect. destruct (data st !! Socket.id s) as [d|]; [|done].
    destruct (decide (d = "")); [done|].
    by destruct (get_device st d) as [[a dev]|].
Qed.

(** X8. Along every run, the samples handed to [appendCsv] and the samples
    emitted to all as [sensor-data] are the same, with the same ids and rows
    and in the same order: no sample is stored without being broadcast, or
    broadcast without being stored. *)
Theorem every_sample_is_persisted_and_broadcast st es :
  persisted (output st es) = broadcast (output st es).
Proof.
  revert st. induction es as [|e es IH]; intros st; [done|].
  rewrite output_cons, persisted_app, broadcast_app, IH.
  by rewrite step_persisted_broadcast.
Qed.

Lemma devices_messages_app out1 out2 :
  devices_messages (out1 ++ out2) = devices_messages out1 ++ devices_messages out2.
Proof. apply omap_app. Qed.

(** A [devices] message of a step carries the listing of the state before
    or after it. *)
Lemma step_devices_messages st e l :
  l ∈ devices_messages (step st e).2 →
  l = listing st ∨ l = listing (step st e).1.
Proof.
  destruct e as [s|s rt p|s rt [p|]|s rt]; cbn [step].
  - unfold on_connection. cbn [snd]. destruct (decide _); cbn.
    + intros ->%list_elem_of_singleton. by left.
    + intros H. by apply elem_of_nil in H.
  - cbn. intros ->%list_elem_of_singleton. by right.
  - cbn. intros H. by apply elem_of_nil in H.
  - cbn. intros H. by apply elem_of_nil in H.
  - unfold on_disconnect. destruct (data st !! Socket.id s) as [d|];
      [|intros H; by apply elem_of_nil in H].
    destruct (decide (d = "")); [intros H; by apply elem_of_nil in H|].
    destruct (get_device st d) as [[a dev]|];
      [|intros H; by apply elem_of_nil in H].
    cbn. intros ->%list_elem_of_singleton. by right.
Qed.

Lemma run_devices_messages st es l :
  wf st → l ∈ devices_messages (output st es) →
  NoDup (Device.deviceId <$> l).
Proof.
  revert st. induction es as [|e es IH]; intros st Hwf.
  - intros H. by apply elem_of_nil in H.
  - rewrite output_cons, devices_messages_app, elem_of_app.
    assert (wf (step st e).1) as Hwf' by by apply step_wf.
    intros [[-> | ->]%step_devices_messages|Hin].
    + rewrite listing_ids by done. apply Hwf.
    + rewrite listing_ids by done. apply Hwf'.
    + by eapply IH.
Qed.

(** X9. Every [devices] message that a run from the empty registry sends,
    to one dashboard or to all, lists each deviceId at most once. *)
Theorem devices_messages_list_each_id_once es l :
  l ∈ devices_messages (output init es) → NoDup (Device.deviceId <$> l).
Proof. apply run_devices_messages, wf_init. Qed.

(** ** Registration, again *)

(** X10. A [register] never fails and is consistent: the id it answers in
    [registered] is non-empty, is the id of the payload when the payload
    carries a non-empty one and the generated [dev_] id otherwise; the
    connection is bound to that same id, the record stored under it carries
    it together with the address and the id of the connection, and the
    [devices] message emitted to all after the answer contains that record. *)
Theorem register_answers_binds_and_stores_one_id s rt payload st :
  let st' := (on_register s rt payload st).1 in
  ∃ d a dev,
    d ≠ "" ∧
    (∀ d0, payload ≫= Payload.deviceId = Some d0 → d0 ≠ "" → d = d0) ∧
    (payload ≫= Payload.deviceId = None ∨
     payload ≫= Payload.deviceId = Some "" → d = synth_id rt) ∧
    (on_register s rt payload st).2 =
      [socket_emit (Socket.id s) (registered_msg d);
       io_emit (devices_msg (listing st'))] ∧
    data st' !! Socket.id s = Some d ∧
    get_device st' d = Some (a, dev) ∧
    dev ∈ listing st' ∧
    Device.deviceId dev = d ∧
    Device.ip dev = Socket.ip s ∧
    Device.socketId dev = Some (Socket.id s) ∧
    Device.lastSeen dev = date1 rt.
Proof.
  intros st'.
  destruct (on_register_entry s rt payload st)
    as (dev & Hget & Hid & Hip & Hsock & Hseen).
  exists (str_or (payload ≫= Payload.deviceId) (synth_id rt)),
         (length (heap st)), dev.
  split; [apply register_id_nonempty|].
  split; [intros d0 -> Hd0; cbn [str_or]; by rewrite decide_False|].
  split; [by intros [-> | ->]|].
  split; [done|].
  split; [apply lookup_insert_eq|].
  split; [done|].
  split; [by eapply get_device_listed|done].
Qed.

(** X11. The position of a device survives a reconnection: when the
    connection bound to a device closes and a new connection registers the
    same id, the record keeps the truthy coordinates it had, under the
    handle and the address of the new connection. *)
Theorem position_survives_reconnection st s rt s2 rt2 p d a dev :
  get_device st d = Some (a, dev) →
  data st !! Socket.id s = Some d → d ≠ "" →
  Payload.deviceId p = Some d →
  ToBoolean (Device.lat dev) = true → ToBoolean (Device.lon dev) = true →
  ∃ a' dev',
    get_device (exec st [Disconnect s rt; Register s2 rt2 (Some p)]) d
      = Some (a', dev') ∧
    Device.lat dev' = Device.lat dev ∧
    Device.lon dev' = Device.lon dev ∧
    Device.socketId dev' = Some (Socket.id s2) ∧
    Device.ip dev' = Socket.ip s2.
Proof.
  intros Hget Hbound Hd Hp Hlat Hlon.
  rewrite !exec_cons, exec_nil. cbn [step].
  assert (∃ dev1, get_device (on_disconnect s rt st).1 d = Some (a, dev1) ∧
                  Device.lat dev1 = Device.lat dev ∧
                  Device.lon dev1 = Device.lon dev) as (dev1 & Hget1 & Hlat1 & Hlon1).
  { unfold on_disconnect. rewrite Hbound, decide_False, Hget by done.
    apply get_device_Some in Hget as [Hk Hdev]. eexists. split.
    - apply get_device_Some. cbn [fst devices heap].
      split; [apply Map_get_set_eq|].
      apply list_lookup_insert_eq. by apply lookup_lt_Some in Hdev.
    - done. }
  set (st1 := (on_disconnect s rt st).1) in *.
  eexists (length (heap st1)), _. split.
  { apply get_device_Some. cbn [on_register fst devices heap].
    cbn [mbind option_bind]. rewrite Hp. cbn [str_or]. rewrite decide_False by done.
    split; [apply Map_get_set_eq|].
    rewrite lookup_app_r by lia. rewrite Nat.sub_diag. reflexivity. }
  rewrite Hget1. cbn [fmap option_fmap option_map from_option snd
    Device.lat Device.lon Device.socketId Device.ip].
  rewrite Hlat1, Hlon1. unfold js_or. by rewrite Hlat, Hlon.
Qed.

(** ** The address of a connection *)

Lemma append_nil r : String.append "" r = r.
Proof. reflexivity. Qed.

Lemma append_cons c a r :
  String.append (String c a) r = String c (String.append a r).
Proof. reflexivity. Qed.

Lemma before_comma_no_comma s : ","%char ∉ chars (before_comma s).
Proof.
  induction s as [|c s IH]; cbn [before_comma]; [apply not_elem_of_nil|].
  destruct (Ascii.eqb_spec c ","%char) as [->|Hne]; [apply not_elem_of_nil|].
  cbn. apply not_elem_of_cons. split; [congruence|done].
Qed.

Lemma before_comma_append a rest :
  ","%char ∉ chars a →
  before_comma (String.append a (String ","%char rest)) = a.
Proof.
  induction a as [|c a IH]; rewrite ?append_nil, ?append_cons; simpl.
  - done.
  - rewrite not_elem_of_cons. intros [Hne Ha].
    destruct (Ascii.eqb_spec c ","%char) as [->|_]; [done|].
    f_equal. by apply IH.
Qed.

Lemma trimStart_chars s c : c ∈ chars (trimStart s) → c ∈ chars s.
Proof.
  induction s as [|c0 s IH]; cbn [trimStart]; [done|].
  destruct (is_space c0); [|done]. intros H. cbn. by apply list_elem_of_further, IH.
Qed.

Lemma trimEnd_chars s c : c ∈ chars (trimEnd s) → c ∈ chars s.
Proof.
  induction s as [|c0 s IH]; cbn [trimEnd]; [done|].
  destruct (trimEnd s) as [|c1 t] eqn:Ht.
  - destruct (is_space c0); cbn; [intros H; by apply elem_of_nil in H|].
    intros ->%list_elem_of_singleton. apply list_elem_of_here.
  - cbn. intros [->|H]%elem_of_cons; [apply list_elem_of_here|].
    apply list_elem_of_further, IH. by cbn.
Qed.

Lemma trimStart_head s c :
  head (chars (trimStart s)) = Some c → is_space c = false.
Proof.
  induction s as [|c0 s IH]; cbn [trimStart]; [done|].
  destruct (is_space c0) eqn:Hc0; [done|]. cbn. by intros [= <-].
Qed.

Lemma trimEnd_head s c :
  head (chars (trimEnd s)) = Some c → head (chars s) = Some c.
Proof.
  destruct s as [|c0 s]; cbn [trimEnd]; [done|].
  destruct (trimEnd s) as [|c1 t]; [|done].
  by destruct (is_space c0).
Qed.

Lemma trimEnd_last s c :
  last (chars (trimEnd s)) = Some c → is_space c = false.
Proof.
  induction s as [|c0 s IH]; cbn [trimEnd]; [done|].
  destruct (trimEnd s) as [|c1 t] eqn:Ht.
  - destruct (is_space c0) eqn:Hc0; [done|]. cbn. by intros [= <-].
  - cbn [chars String.list_ascii_of_string] in *. rewrite last_cons_cons. apply IH.
Qed.





(** X12. When the handshake has a non-empty [x-forwarded-for] header, the
    address of the connection is read off the header alone: it is the first
    element of the comma-separated list with the white space around it
    removed, so it holds no comma and neither starts nor ends with white
    space; the address of the socket is not looked at. *)
Theorem forwarded_header_gives_first_hop_trimmed h xff :
  Handshake.x_forwarded_for h = Some xff → xff ≠ "" →
  let ip := clientIpFromSocket h in
  ip = trim (before_comma xff) ∧
  (∀ a rest, xff = String.append a (String ","%char rest) →
             ","%char ∉ chars a → ip = trim a) ∧
  (","%char ∉ chars ip) ∧
  (∀ c, head (chars ip) = Some c → is_space c = false) ∧
  (∀ c, last (chars ip) = Some c → is_space c = false).
Proof.
  intros Hxff Hne ip.
  assert (ip = trim (before_comma xff)) as Hip.
  { subst ip. unfold clientIpFromSocket. rewrite Hxff. cbn [str_or].
    destruct (decide (xff = "")); [done|]. by rewrite decide_False. }
  split; [done|]. rewrite Hip. unfold trim. split.
  { intros a rest -> Ha. by rewrite before_comma_append. }
  split.
  { intros H%trimEnd_chars%trimStart_chars. by apply before_comma_no_comma in H. }
  split.
  - intros c H%trimEnd_head. by eapply trimStart_head.
  - apply trimEnd_last.
Qed.


(** ** The position in the next [devices] message *)

(** The [devices] message of a connection carries the listing as it is;
    that of a [register] or of a disconnect, the listing that the event
    leaves. *)
Lemma devices_message_exact st e l :
  l ∈ devices_messages (step st e).2 →
  l = match e with
      | Connection _ => listing st
      | _ => listing (step st e).1
      end.
Proof.
  destruct e as [s|s rt p|s rt [p|]|s rt]; cbn [step].
  - unfold on_connection. cbn [snd]. destruct (decide _); cbn.
    + by intros ->%list_elem_of_singleton.
    + intros H. by apply elem_of_nil in H.
  - cbn. by intros ->%list_elem_of_singleton.
  - cbn. intros H. by apply elem_of_nil in H.
  - cbn. intros H. by apply elem_of_nil in H.
  - unfold on_disconnect. destruct (data st !! Socket.id s) as [d|];
      [|intros H; by apply elem_of_nil in H].
    destruct (decide (d = "")); [intros H; by apply elem_of_nil in H|].
    destruct (get_device st d) as [[a dev]|];
      [|intros H; by apply elem_of_nil in H].
    cbn. by intros ->%list_elem_of_singleton.
Qed.

(** What a [devices] message of the next event shows of a device that has
    a record: the coordinates of the record, or, when the event is a
    [register] of that device, those coordinates with [null] in place of a
    falsy one. *)
Lemma next_devices_message st d a dev e l :
  wf st → get_device st d = Some (a, dev) →
  l ∈ devices_messages (step st e).2 →
  ∃ dev',
    dev' ∈ l ∧ Device.deviceId dev' = d ∧
    if registers_id d e then
      Device.lat dev' = js_or (Device.lat dev) VNull ∧
      Device.lon dev' = js_or (Device.lon dev) VNull
    else
      Device.lat dev' = Device.lat dev ∧ Device.lon dev' = Device.lon dev.
Proof.
  intros Hwf Hget Hl.
  assert (Device.deviceId dev = d) as Hid.
  { apply get_device_Some in Hget as [Hk Hdev].
    apply Map_get_Some_elem, (wf_objs _ Hwf) in Hk as (dev0 & Hdev0 & Hid0).
    congruence. }
  assert (∀ st1 dev1, get_device st1 d = Some dev1 → dev1.2 ∈ listing st1)
    as Hlisted.
  { intros st1 [a1 dev1] H1. by eapply get_device_listed. }
  destruct e as [s|s rt payload|s rt [p|]|s rt];
    try (cbn in Hl; by apply elem_of_nil in Hl);
    apply devices_message_exact in Hl; cbn [step registers_id] in *; subst l.
  - exists dev. split; [apply (Hlisted st (a, dev) Hget)|done].
  - set (d' := str_or (payload ≫= Payload.deviceId) (synth_id rt)) in *.
    destruct (decide (d' = d)) as [Heq|Hne].
    + rewrite bool_decide_eq_true_2 by done.
      destruct (on_register_entry s rt payload st) as (dev' & Hget' & Hid' & _).
      fold d' in Hget', Hid'.
      exists dev'.
      split; [apply (Hlisted _ (length (heap st), dev')); by rewrite <- Heq|].
      split; [congruence|].
      apply get_device_Some in Hget' as [_ Hdev'].
      cbn [on_register fst heap] in Hdev'.
      rewrite lookup_app_r in Hdev' by lia. rewrite Nat.sub_diag in Hdev'.
      injection Hdev' as <-. cbn [Device.lat Device.lon]. fold d'.
      by rewrite Heq, Hget.
    + rewrite bool_decide_eq_false_2 by done.
      exists dev. split; [|done]. apply (Hlisted _ (a, dev)).
      cbn [on_register fst]. by rewrite get_device_alloc.
  - unfold on_disconnect in *.
    destruct (data st !! Socket.id s) as [d1|];
      [|exists dev; split; [by apply (Hlisted _ (a, dev))|done]].
    destruct (decide (d1 = ""));
      [exists dev; split; [by apply (Hlisted _ (a, dev))|done]|].
    destruct (get_device st d1) as [[a1 dev1]|] eqn:Hget1;
      [|exists dev; split; [by apply (Hlisted _ (a, dev))|done]].
    cbn [fst].
    destruct (decide (d1 = d)) as [Heq|Hne].
    + rewrite Heq, Hget in Hget1. injection Hget1 as <- <-.
      apply get_device_Some in Hget as [Hk Hdev].
      exists {| Device.deviceId := Device.deviceId dev;
                Device.ip := Device.ip dev;
                Device.socketId := None;
                Device.lastSeen := date1 rt;
                Device.lat := Device.lat dev;
                Device.lon := Device.lon dev |}.
      split; [|done].
      apply (Hlisted _ (a, _)). apply get_device_Some.
      cbn [devices heap]. rewrite Heq.
      split; [apply Map_get_set_eq|].
      apply list_lookup_insert_eq. by apply lookup_lt_Some in Hdev.
    + exists dev. split; [|done]. apply (Hlisted _ (a, dev)).
      apply get_device_Some in Hget1 as [Hk1 _].
      by rewrite get_device_update.
Qed.

(** C3, as the code has it. After a [sensor-data] event the record of the
    device holds the coordinates of that sample, the most recent one, whether
    or not it carried a position: each of [lat] and [lon] is the value of the
    payload, or the empty string when the payload does not carry it (a falsy
    value counts as not carried), whatever the record held before. Every
    [devices] message of the next event shows the record with these
    coordinates, but for a [register] of the same device, which shows [null]
    in place of the empty string. *)
Theorem C3_record_holds_position_of_latest_sample s rt p st :
  wf st →
  let st' := (on_sensor_data s rt (Some p) st).1 in
  let d := sample_id s rt p st in
  ∃ a dev,
    get_device st' d = Some (a, dev) ∧
    dev ∈ read (heap st') (snapshot st') ∧
    Device.lat dev = js_or (Payload.lat p) (VStr "") ∧
    Device.lon dev = js_or (Payload.lon p) (VStr "") ∧
    (missing (Payload.lat p) → Device.lat dev = VStr "") ∧
    (missing (Payload.lon p) → Device.lon dev = VStr "") ∧
    ∀ e l, l ∈ devices_messages (step st' e).2 →
      ∃ dev',
        dev' ∈ l ∧ Device.deviceId dev' = d ∧
        if registers_id d e then
          Device.lat dev' = js_or (Device.lat dev) VNull ∧
          Device.lon dev' = js_or (Device.lon dev) VNull
        else
          Device.lat dev' = Device.lat dev ∧ Device.lon dev' = Device.lon dev.
Proof.
  intros Hwf st' d.
  destruct (on_sensor_data_entry s rt p st) as (a & dev & Hget & _ & Hlat & Hlon).
  exists a, dev. split; [done|]. split; [by eapply get_device_listed|].
  split; [done|]. split; [done|].
  split; [rewrite Hlat; apply js_or_missing|].
  split; [rewrite Hlon; apply js_or_missing|].
  intros e l Hl. eapply next_devices_message; [|exact Hget|exact Hl].
  apply (step_wf st (SensorData s rt (Some p)) Hwf).
Qed.

(** ** The objects of an array taken earlier *)








End Server.

(** ** The theorems on concrete runs *)


(** C2 fails as stated: two connections register the id [A]; when the first
    one, superseded, closes, the record of [A] loses the handle [s2] of the
    second one, which is still open, and its [lastSeen] is set. *)
Lemma C2_counterexample_stale_disconnect_clears_newer_handle :
  let st := exec StringToNumber_examples init
              [Register conn1 rt1 (Some payload_A);
               Register conn2 rt2 (Some payload_A)] in
  let st' := exec StringToNumber_examples st [Disconnect conn1 rt3] in
  snd <$> get_device st "A" =
    Some (Device.mk "A" "10.0.0.2" (Some "s2") "T2" VNull VNull) ∧
  snd <$> get_device st' "A" =
    Some (Device.mk "A" "10.0.0.2" None "T3" VNull VNull).
Proof. split; vm_compute; reflexivity. Qed.

(** C2 on the run of its counterexample. *)
Lemma C2_witness :
  let st := exec StringToNumber_examples init
              [Register conn1 rt1 (Some payload_A);
               Register conn2 rt2 (Some payload_A)] in
  let st' := (on_disconnect conn1 rt3 st).1 in
  heap st' !! 1 = Some (Device.mk "A" "10.0.0.2" None "T3" VNull VNull) ∧
  (∀ a', a' ≠ 1 → heap st' !! a' = heap st !! a') ∧
  devices st' = devices st ∧
  data st' = data st ∧
  (on_disconnect conn1 rt3 st).2 =
    [io_emit (devices_msg (read (heap st') (snapshot st')))].
Proof.
  apply (C2_disconnect_clears_record_of_bound_id conn1 rt3
           (exec StringToNumber_examples init
              [Register conn1 rt1 (Some payload_A);
               Register conn2 rt2 (Some payload_A)])
           "A" 1 (Device.mk "A" "10.0.0.2" (Some "s2") "T2" VNull VNull)).
  - vm_compute. reflexivity.
  - discriminate.
  - vm_compute. reflexivity.
Defined.

(** C3 fails as stated: after a sample with the position [(10.5, 20.5)], a
    sample of the same device without [lat] and [lon] replaces the stored
    coordinates by the empty string, and the next [devices] message shows
    them so. *)
Lemma C3_counterexample_sample_without_position_clears_it :
  let st := exec StringToNumber_examples init
              [Register conn1 rt1 (Some payload_A);
               SensorData conn1 rt2 (Some payload_position)] in
  let st' := exec StringToNumber_examples st
               [SensorData conn1 rt3 (Some Payload.empty)] in
  snd <$> get_device st "A" =
    Some (Device.mk "A" "10.0.0.1" (Some "s1") "T2'" (VNum 10.5) (VNum 20.5)) ∧
  snd <$> get_device st' "A" =
    Some (Device.mk "A" "10.0.0.1" (Some "s1") "T3'" (VStr "") (VStr "")) ∧
  output StringToNumber_examples st' [Connection admin_conn] =
    [socket_emit "a1"
       (devices_msg
          [Device.mk "A" "10.0.0.1" (Some "s1") "T3'" (VStr "") (VStr "")])].
Proof. repeat split; vm_compute; reflexivity. Qed.

(** C3 for a sample without position of a device that has one. *)
Lemma C3_witness :
  let st := exec StringToNumber_examples init
              [Register conn1 rt1 (Some payload_A);
               SensorData conn1 rt2 (Some payload_position)] in
  let st' := (on_sensor_data StringToNumber_examples conn1 rt3
                (Some Payload.empty) st).1 in
  let d := sample_id conn1 rt3 Payload.empty st in
  ∃ a dev,
    get_device st' d = Some (a, dev) ∧
    dev ∈ read (heap st') (snapshot st') ∧
    Device.lat dev = js_or VUndefined (VStr "") ∧
    Device.lon dev = js_or VUndefined (VStr "") ∧
    (missing VUndefined → Device.lat dev = VStr "") ∧
    (missing VUndefined → Device.lon dev = VStr "") ∧
    ∀ e l, l ∈ devices_messages (step StringToNumber_examples st' e).2 →
      ∃ dev',
        dev' ∈ l ∧ Device.deviceId dev' = d ∧
        if registers_id d e then
          Device.lat dev' = js_or (Device.lat dev) VNull ∧
          Device.lon dev' = js_or (Device.lon dev) VNull
        else
          Device.lat dev' = Device.lat dev ∧ Device.lon dev' = Device.lon dev.
Proof.
  apply (C3_record_holds_position_of_latest_sample StringToNumber_examples
           conn1 rt3 Payload.empty
           (exec StringToNumber_examples init
              [Register conn1 rt1 (Some payload_A);
               SensorData conn1 rt2 (Some payload_position)])).
  apply exec_wf, wf_init.
Defined.

(** C4 fails as stated, on both paths. A second [register] of a connection
    binds its own id: after [register A] and [register B] a sample that
    claims [A] is attributed to [B], not to the first id resolved. And a
    [sensor-data] binds nothing: after a sample resolved to [A], a sample of
    the same connection that claims [B] is attributed to [B]. *)
Lemma C4_counterexample_first_resolution_does_not_bind :
  sample_id conn1 rt3 payload_A
    (exec StringToNumber_examples init
       [Register conn1 rt1 (Some payload_A);
        Register conn1 rt2 (Some payload_B)]) = "B" ∧
  sample_id conn1 rt1 payload_A init = "A" ∧
  sample_id conn1 rt2 payload_B
    (exec StringToNumber_examples init
       [SensorData conn1 rt1 (Some payload_A)]) = "B".
Proof. repeat split; vm_compute; reflexivity. Qed.

(** C4 where another connection sends a sample and registers [B] in
    between. *)
Lemma C4_witness :
  let st1 := exec StringToNumber_examples init
               [Register conn1 rt1 (Some payload_A);
                SensorData conn2 rt2 (Some payload_position);
                Register conn2 rt2 (Some payload_B)] in
  sample_id conn1 rt3 payload_B st1 = "A" ∧
  (∃ row, (on_sensor_data StringToNumber_examples conn1 rt3 (Some payload_B) st1).2 =
            [appendCsv "A" row; io_emit (sensor_data_msg "A" row)]) ∧
  data (on_sensor_data StringToNumber_examples conn1 rt3 (Some payload_B) st1).1
    !! Socket.id conn1 = Some "A".
Proof.
  apply (C4_samples_attributed_to_latest_register StringToNumber_examples
           init conn1 rt1 (Some payload_A)
           [SensorData conn2 rt2 (Some payload_position);
            Register conn2 rt2 (Some payload_B)] rt3 payload_B).
  repeat constructor. discriminate.
Defined.

(** C5 fails as stated: [true] is no number, and the axis that holds it
    becomes [1], not [0]. *)
Lemma C5_counterexample_true_becomes_one :
  is_number (VBool true) = false ∧
  output StringToNumber_examples init
    [SensorData conn1 rt1 (Some payload_true)] =
    [appendCsv "dev_01234567"
       (Row.mk (VStr "T1") 1 0 0 (VStr "") (VStr "") "10.0.0.1");
     io_emit (sensor_data_msg "dev_01234567"
       (Row.mk (VStr "T1") 1 0 0 (VStr "") (VStr "") "10.0.0.1"))].
Proof. split; vm_compute; reflexivity. Qed.

(** C5 on the first sample of a connection. *)
Lemma C5_witness :
  (∀ p, ∃ row,
     (on_sensor_data StringToNumber_examples conn1 rt1 (Some p) init).2 =
       [appendCsv (sample_id conn1 rt1 p init) row;
        io_emit (sensor_data_msg (sample_id conn1 rt1 p init) row)] ∧
     normalised StringToNumber_examples (Payload.x p) (Row.x row) ∧
     normalised StringToNumber_examples (Payload.y p) (Row.y row) ∧
     normalised StringToNumber_examples (Payload.z p) (Row.z row) ∧
     Row.time row = js_or (Payload.time p) (VStr "T1") ∧
     Row.lat row = js_or (Payload.lat p) (VStr "") ∧
     Row.lon row = js_or (Payload.lon p) (VStr "") ∧
     Row.ip row = "10.0.0.1" ∧
     (Payload.x p = VStr "abc" → Payload.y p = VNull → Payload.z p = VUndefined →
      Row.x row = 0%float ∧ Row.y row = 0%float ∧ Row.z row = 0%float)) ∧
  on_sensor_data StringToNumber_examples conn1 rt1 None init = (init, []).
Proof.
  apply (C5_axes_normalised_and_absent_payload_dropped StringToNumber_examples
           conn1 rt1 init).
  vm_compute. reflexivity.
Defined.

(** The malformed sample of the specification: its three axes become [0]
    and it is handed to [appendCsv] and emitted like any other. *)
Lemma malformed_sample_is_normalised :
  output StringToNumber_examples init
    [SensorData conn1 rt1 (Some payload_malformed)] =
    [appendCsv "dev_01234567"
       (Row.mk (VStr "T1") 0 0 0 (VStr "") (VStr "") "10.0.0.1");
     io_emit (sensor_data_msg "dev_01234567"
       (Row.mk (VStr "T1") 0 0 0 (VStr "") (VStr "") "10.0.0.1"))].
Proof. vm_compute. reflexivity. Qed.

(** C6 fails as stated: for the payload [{x: 1, y: 2, z: 3}] the row handed
    to [appendCsv] and the message emitted to all carry the empty string as
    [lat] and as [lon], a value that is neither [undefined] nor [null]. *)
Lemma C6_counterexample_missing_position_is_empty_string :
  output StringToNumber_examples init
    [SensorData conn1 rt1 (Some payload_no_position)] =
    [appendCsv "dev_01234567"
       (Row.mk (VStr "T1") 1 2 3 (VStr "") (VStr "") "10.0.0.1");
     io_emit (sensor_data_msg "dev_01234567"
       (Row.mk (VStr "T1") 1 2 3 (VStr "") (VStr "") "10.0.0.1"))] ∧
  ¬ missing (VStr "").
Proof.
  split; [vm_compute; reflexivity|].
  intros [H|H]; discriminate H.
Qed.

(** C7 fails as stated: a connection that opens with the role [observer]
    is sent nothing, although the registry holds a record. *)
Lemma C7_counterexample_observer_role_is_sent_nothing :
  let st := exec StringToNumber_examples init
              [Register conn1 rt1 (Some payload_A)] in
  Socket.role observer_conn = "observer" ∧
  snapshot st = [0] ∧
  run StringToNumber_examples st [Connection observer_conn] = (st, []).
Proof. repeat split; vm_compute; reflexivity. Qed.

(** C7 for a dashboard that connects after a device has registered. *)
Lemma C7_witness :
  let st := exec StringToNumber_examples init
              [Register conn1 rt1 (Some payload_A)] in
  run StringToNumber_examples st
    [Connection admin_conn; SensorData conn1 rt2 (Some payload_position)] =
    (exec StringToNumber_examples st
       [SensorData conn1 rt2 (Some payload_position)],
     socket_emit (Socket.id admin_conn)
       (devices_msg (read (heap st) (snapshot st)))
       :: output StringToNumber_examples st
            [SensorData conn1 rt2 (Some payload_position)]).
Proof.
  apply (C7_admin_connection_is_sent_listing_first StringToNumber_examples
           admin_conn).
  vm_compute. reflexivity.
Defined.

(** C8 fails as stated. A record left by a sample without position holds
    the empty string as [lat] and [lon]; a [register] for its id replaces
    both by [null]. And on a registry whose record holds the latitude [0],
    the handler replaces it by [null] while the longitude [20.5] is kept. *)
Lemma C8_counterexample_register_replaces_falsy_position :
  let st := exec StringToNumber_examples init
              [SensorData conn1 rt1 (Some payload_A)] in
  let st' := exec StringToNumber_examples st
               [Register conn2 rt2 (Some payload_A)] in
  (snd <$> get_device st "A" =
     Some (Device.mk "A" "10.0.0.1" (Some "s1") "T1'" (VStr "") (VStr "")) ∧
   snd <$> get_device st' "A" =
     Some (Device.mk "A" "10.0.0.2" (Some "s2") "T2" VNull VNull)) ∧
  snd <$> get_device
            (on_register conn2 rt2 (Some payload_A) registry_lat_zero).1 "A" =
    Some (Device.mk "A" "10.0.0.2" (Some "s2") "T2" VNull (VNum 20.5)).
Proof. repeat split; vm_compute; reflexivity. Qed.

(** C8 for a device that registered, sent its position and registers again
    on a new connection. *)
Lemma C8_witness :
  let st := exec StringToNumber_examples init
              [Register conn1 rt1 (Some payload_A);
               SensorData conn1 rt2 (Some payload_position)] in
  ∃ a' dev',
    get_device (on_register conn2 rt3 (Some payload_A) st).1 "A"
      = Some (a', dev') ∧
    Device.deviceId dev' = "A" ∧
    Device.ip dev' = "10.0.0.2" ∧
    Device.socketId dev' = Some "s2" ∧
    Device.lastSeen dev' = "T3" ∧
    (ToBoolean (VNum 10.5) = true ∨ VNum 10.5 = VNull →
     Device.lat dev' = VNum 10.5) ∧
    (ToBoolean (VNum 20.5) = true ∨ VNum 20.5 = VNull →
     Device.lon dev' = VNum 20.5) ∧
    (VNum 10.5 = VStr "" → Device.lat dev' = VNull) ∧
    (VNum 20.5 = VStr "" → Device.lon dev' = VNull).
Proof.
  apply (C8_register_known_id_keeps_truthy_position conn2 rt3 (Some payload_A)
           (exec StringToNumber_examples init
              [Register conn1 rt1 (Some payload_A);
               SensorData conn1 rt2 (Some payload_position)])
           0 (Device.mk "A" "10.0.0.1" (Some "s1") "T2'" (VNum 10.5) (VNum 20.5))).
  vm_compute. reflexivity.
Defined.


(** C10 for a connection that sends one sample and closes. *)
Lemma C10_witness :
  let st1 := exec StringToNumber_examples init
               ([Register conn2 rt2 (Some payload_A)] ++
                [SensorData conn1 rt1 (Some payload_position)]) in
  on_disconnect conn1 rt3 st1 = (st1, []) ∧
  ∃ a dev,
    get_device (on_disconnect conn1 rt3 st1).1
      (sample_id conn1 rt1 payload_position
         (exec StringToNumber_examples init
            [Register conn2 rt2 (Some payload_A)]))
      = Some (a, dev) ∧
    Device.socketId dev = Some (Socket.id conn1).
Proof.
  apply (C10_disconnect_without_register_is_no_op StringToNumber_examples
           init conn1 [Register conn2 rt2 (Some payload_A)] rt1
           payload_position rt3).
  - vm_compute. reflexivity.
  - repeat constructor. discriminate.
Defined.

(** ** The further theorems on concrete runs *)

(** X3 on two registrations. *)
Lemma distinct_registrations_witness :
  listing (exec StringToNumber_examples init (register_event <$> two_registrations))
  = registered_entry <$> two_registrations.
Proof.
  apply (distinct_registrations_are_listed_in_order StringToNumber_examples
           two_registrations).
  - compute_done.
  - repeat constructor; discriminate.
Defined.

(** X4: a sample of [B] leaves the record of [A]. *)
Lemma event_leaves_other_records_witness :
  let st := exec StringToNumber_examples init
              (register_event <$> two_registrations) in
  get_device (step StringToNumber_examples st
                (SensorData conn2 rt3 (Some payload_position))).1 "A"
  = get_device st "A".
Proof.
  apply (event_leaves_other_records StringToNumber_examples
           (exec StringToNumber_examples init
              (register_event <$> two_registrations))
           (SensorData conn2 rt3 (Some payload_position)) "A").
  - apply exec_wf, wf_init.
  - vm_compute. discriminate.
Defined.

(** X5 for the first of two connections that registered. *)
Lemma registered_connection_goes_offline_witness :
  let st := exec StringToNumber_examples init
              (register_event <$> two_registrations) in
  ∃ a dev,
    get_device st "A" = Some (a, dev) ∧
    get_device (on_disconnect conn1 rt3 st).1 "A" =
      Some (a, {| Device.deviceId := Device.deviceId dev;
                  Device.ip := Device.ip dev;
                  Device.socketId := None;
                  Device.lastSeen := "T3";
                  Device.lat := Device.lat dev;
                  Device.lon := Device.lon dev |}) ∧
    (on_disconnect conn1 rt3 st).2 =
      [io_emit (devices_msg (listing (on_disconnect conn1 rt3 st).1))].
Proof.
  apply (registered_connection_always_goes_offline StringToNumber_examples
           (register_event <$> two_registrations) conn1 rt3 "A").
  vm_compute. reflexivity.
Defined.

(** X6: a sample of [A] sent by the second connection. *)
Lemma sample_for_known_device_witness :
  let st := exec StringToNumber_examples init
              (register_event <$> two_registrations) in
  let st' := (on_sensor_data StringToNumber_examples conn2 rt3
                (Some payload_position) st).1 in
  devices st' = devices st ∧
  length (heap st') = length (heap st) ∧
  (∃ dev', heap st' !! 1 = Some dev' ∧
           Device.deviceId dev' = "B" ∧
           Device.ip dev' = "10.0.0.2" ∧
           Device.socketId dev' = Some "s2") ∧
  devices_messages (on_sensor_data StringToNumber_examples conn2 rt3
                      (Some payload_position) st).2 = [].
Proof.
  apply (sample_for_known_device_updates_in_place StringToNumber_examples
           conn2 rt3 payload_position
           (exec StringToNumber_examples init
              (register_event <$> two_registrations))
           1 (Device.mk "B" "10.0.0.2" (Some "s2") "T2" VNull VNull)).
  vm_compute. reflexivity.
Defined.

(** X7: the first sample of a connection that never registered. *)
Lemma sample_for_unknown_device_witness :
  let st := exec StringToNumber_examples init
              (register_event <$> two_registrations) in
  let st' := (on_sensor_data StringToNumber_examples admin_conn rt3
                (Some payload_position) st).1 in
  listing st' =
    listing st ++
    [{| Device.deviceId := sample_id admin_conn rt3 payload_position st;
        Device.ip := "10.0.0.9";
        Device.socketId := Some "a1";
        Device.lastSeen := "T3'";
        Device.lat := VNum 10.5;
        Device.lon := VNum 20.5 |}] ∧
  ids st' = ids st ++ [sample_id admin_conn rt3 payload_position st] ∧
  devices_messages (on_sensor_data StringToNumber_examples admin_conn rt3
                      (Some payload_position) st).2 = [].
Proof.
  apply (sample_for_unknown_device_adds_record StringToNumber_examples
           admin_conn rt3 payload_position
           (exec StringToNumber_examples init
              (register_event <$> two_registrations))).
  - apply exec_wf, wf_init.
  - vm_compute. intros H. repeat (apply elem_of_cons in H as [H|H]; [discriminate H|]).
    by apply elem_of_nil in H.
Defined.

(** X9 for the [devices] message of the second of two registrations. *)
Lemma devices_messages_witness :
  NoDup (Device.deviceId <$> (registered_entry <$> two_registrations)).
Proof.
  apply (devices_messages_list_each_id_once StringToNumber_examples
           (register_event <$> two_registrations)
           (registered_entry <$> two_registrations)).
  vm_compute. apply list_elem_of_further, list_elem_of_here.
Defined.

(** X11 for a device that registered, sent its position, lost its
    connection and registers again. *)
Lemma position_survives_reconnection_witness :
  let st := exec StringToNumber_examples init
              [Register conn1 rt1 (Some payload_A);
               SensorData conn1 rt2 (Some payload_position)] in
  ∃ a' dev',
    get_device (exec StringToNumber_examples st
                  [Disconnect conn1 rt3; Register conn2 rt3 (Some payload_A)]) "A"
      = Some (a', dev') ∧
    Device.lat dev' = VNum 10.5 ∧
    Device.lon dev' = VNum 20.5 ∧
    Device.socketId dev' = Some "s2" ∧
    Device.ip dev' = "10.0.0.2".
Proof.
  apply (position_survives_reconnection StringToNumber_examples
           (exec StringToNumber_examples init
              [Register conn1 rt1 (Some payload_A);
               SensorData conn1 rt2 (Some payload_position)])
           conn1 rt3 conn2 rt3 payload_A "A" 0
           (Device.mk "A" "10.0.0.1" (Some "s1") "T2'" (VNum 10.5) (VNum 20.5)));
    vm_compute; first [reflexivity | discriminate].
Defined.

(** X12 on a header with two hops. *)
Lemma forwarded_header_witness :
  let ip := clientIpFromSocket handshake_forwarded in
  ip = trim (before_comma " 203.0.113.7 , 10.0.0.1") ∧
  (∀ a rest, " 203.0.113.7 , 10.0.0.1" = String.append a (String ","%char rest) →
             ","%char ∉ chars a → ip = trim a) ∧
  (","%char ∉ chars ip) ∧
  (∀ c, head (chars ip) = Some c → is_space c = false) ∧
  (∀ c, last (chars ip) = Some c → is_space c = false).
Proof.
  apply (forwarded_header_gives_first_hop_trimmed handshake_forwarded
           " 203.0.113.7 , 10.0.0.1").
  - reflexivity.
  - discriminate.
Defined.


(** An array taken before a second [register] of the device: it keeps
    showing the record of the first one, and neither the sample nor the
    disconnect that follow. *)
Lemma older_array_after_a_second_register :
  let st := exec StringToNumber_examples init
              [Register conn1 rt1 (Some payload_A)] in
  let arr := snapshot st in
  let st' := exec StringToNumber_examples st
               [Register conn2 rt2 (Some payload_A);
                SensorData conn2 rt3 (Some payload_position);
                Disconnect conn2 rt3] in
  read (heap st') arr =
    [Device.mk "A" "10.0.0.1" (Some "s1") "T1" VNull VNull] ∧
  read (heap st') (snapshot st') =
    [Device.mk "A" "10.0.0.2" None "T3" (VNum 10.5) (VNum 20.5)].
Proof. split; vm_compute; reflexivity. Qed.

